(** * pointblank: comparison primitives, interrogation and validation plan

    A shallow embedding of

    - [pointblank/comparison.py]      (class [Comparator]),
    - [pointblank/_interrogation.py]  (class [Interrogator], local backends),
    - [pointblank/validate.py]        (class [Validate]: [interrogate],
                                       [_add_validation], [_get_validation_dict])

    together with the properties stated about them. *)

From Stdlib Require Import ZArith QArith Qround.
From stdpp Require Import gmap strings list fin_maps.

Set Warnings "-register-all".

Local Open Scope Z_scope.
Local Open Scope string_scope.

(** ** Python values and exceptions *)

(** The values [Comparator] is fed: numbers (modelled as integers), [None],
    and lists of values. *)
Inductive pyval : Type :=
  | VNone
  | VNum (z : Z)
  | VList (l : list pyval).

Inductive pyerr : Type :=
  | ValueError (msg : string)
  | TypeError (msg : string)
  | AttributeError (msg : string)
  | LibraryError (msg : string).

(** A computation either returns or raises. *)
Inductive res (A : Type) : Type :=
  | Ok (a : A)
  | Raise (e : pyerr).
Arguments Ok {A} a.
Arguments Raise {A} e.

#[global] Instance res_bind : MBind res := fun A B k m =>
  match m with
  | Ok a => k a
  | Raise e => Raise e
  end.

Fixpoint res_mapM {A B} (f : A → res B) (l : list A) : res (list B) :=
  match l with
  | [] => Ok []
  | a :: l' => b ← f a ; bs ← res_mapM f l' ; Ok (b :: bs)
  end.

Module Comparison.

(** [isinstance(v, list)] *)
Definition is_list (v : pyval) : bool :=
  match v with VList _ => true | _ => false end.

(** [v is not None] *)
Definition is_not_None (v : pyval) : bool :=
  match v with VNone => false | _ => true end.

Definition type_name (v : pyval) : string :=
  match v with
  | VNone => "NoneType"
  | VNum _ => "int"
  | VList _ => "list"
  end.

(** Python's [==] on values: structural, never raises. *)
Fixpoint py_eq (a b : pyval) {struct a} : bool :=
  match a, b with
  | VNone, VNone => true
  | VNum x, VNum y => Z.eqb x y
  | VList la, VList lb =>
      (fix go (la lb : list pyval) {struct la} : bool :=
         match la, lb with
         | [], [] => true
         | a' :: la', b' :: lb' => py_eq a' b' && go la' lb'
         | _, _ => false
         end) la lb
  | _, _ => false
  end.

Definition not_supported (op : string) (a b : pyval) : pyerr :=
  TypeError (String.append "'" (String.append op
    (String.append "' not supported between instances of '"
    (String.append (type_name a) (String.append "' and '"
    (String.append (type_name b) "'")))))).

(** Python's ordering [a < b] ([strict = true]) and [a <= b]
    ([strict = false]): numbers compare numerically, lists
    lexicographically, and every other pairing raises [TypeError]. *)
Fixpoint py_order (op : string) (strict : bool) (a b : pyval) {struct a} : res bool :=
  match a, b with
  | VNum x, VNum y => Ok (if strict then Z.ltb x y else Z.leb x y)
  | VList la, VList lb =>
      (fix go (la lb : list pyval) {struct la} : res bool :=
         match la, lb with
         | [], [] => Ok (negb strict)
         | [], _ :: _ => Ok true
         | _ :: _, [] => Ok false
         | a' :: la', b' :: lb' =>
             if py_eq a' b' then go la' lb' else py_order op strict a' b'
         end) la lb
  | _, _ => Raise (not_supported op a b)
  end.

Definition py_lt (a b : pyval) : res bool := py_order "<" true a b.
Definition py_le (a b : pyval) : res bool := py_order "<=" false a b.

(** Python's [a > b] ([strict = true]) and [a >= b] ([strict = false]).
    Two lists are decided by their first differing elements, compared with
    the same operator, so that is the comparison a [TypeError] reports. *)
Fixpoint py_order_desc (op : string) (strict : bool) (a b : pyval) {struct a} : res bool :=
  match a, b with
  | VNum x, VNum y => Ok (if strict then Z.ltb y x else Z.leb y x)
  | VList la, VList lb =>
      (fix go (la lb : list pyval) {struct la} : res bool :=
         match la, lb with
         | [], [] => Ok (negb strict)
         | [], _ :: _ => Ok false
         | _ :: _, [] => Ok true
         | a' :: la', b' :: lb' =>
             if py_eq a' b' then go la' lb' else py_order_desc op strict a' b'
         end) la lb
  | _, _ => Raise (not_supported op a b)
  end.

Definition py_gt (a b : pyval) : res bool := py_order_desc ">" true a b.

(** The dataclass [Comparator]. *)
Record Comparator : Type := mkComparator {
  x : pyval;
  compare : pyval;
  low : pyval;
  high : pyval
}.

Definition length_mismatch (name : string) : pyerr :=
  ValueError (String.append "Length of `x` and `"
                (String.append name "` must be the same.")).

(** [Comparator._ensure_list(value, length, name)] *)
Definition _ensure_list (value : pyval) (length : option nat) (name : string)
  : res pyval :=
  match value with
  | VList l =>
      match length with
      | Some n =>
          if bool_decide (List.length l ≠ n)
          then Raise (length_mismatch name)
          else Ok value
      | None => Ok value
      end
  | _ => Ok (VList (replicate (match length with Some n => n | None => 1%nat end) value))
  end.

(** [len(self.x)] once [self.x] has been normalised to a list. *)
Definition len (v : pyval) : nat :=
  match v with VList l => List.length l | _ => 0%nat end.

(** [Comparator.__post_init__]: the state of the object after
    construction, or the exception construction raises. *)
Definition __post_init__ (self : Comparator) : res Comparator :=
  let x' := if is_list (x self) then x self else VList [x self] in
  compare' ← (if is_not_None (compare self)
              then _ensure_list (compare self) (Some (len x')) "compare"
              else Ok (compare self)) ;
  low' ← (if is_not_None (low self)
          then _ensure_list (low self) (Some (len x')) "low"
          else Ok (low self)) ;
  high' ← (if is_not_None (high self)
           then _ensure_list (high self) (Some (len x')) "high"
           else Ok (high self)) ;
  Ok {| x := x'; compare := compare'; low := low'; high := high' |}.

(** Iterating [for i in self.x]. *)
Definition iter (v : pyval) : res (list pyval) :=
  match v with
  | VList l => Ok l
  | _ => Raise (TypeError (String.append "'" (String.append (type_name v)
                              "' object is not iterable")))
  end.

(** [Comparator.between(low, high)]:
    [[low <= i <= high for i in self.x]] *)
Definition between (self : Comparator) (low high : pyval) : res (list bool) :=
  xs ← iter (x self) ;
  res_mapM (fun i =>
    a ← py_le low i ;
    if (a : bool) then py_le i high else Ok false) xs.

(** [Comparator.outside()]:
    [[i < self.low or i > self.high for i in self.x]] *)
Definition outside (self : Comparator) : res (list bool) :=
  xs ← iter (x self) ;
  res_mapM (fun i =>
    a ← py_lt i (low self) ;
    if (a : bool) then Ok true else py_gt i (high self)) xs.

(** *** The elementwise methods *)

Definition py_ge (a b : pyval) : res bool := py_order_desc ">=" false a b.

(** [zip(self.x, self.compare)]: both arguments are iterated, and the
    pairs end with the shorter of the two. *)
Definition zip_ (a b : pyval) : res (list (pyval * pyval)) :=
  la ← iter a ; lb ← iter b ; Ok (zip la lb).

(** [Comparator.gt()]: [[i > j for i, j in zip(self.x, self.compare)]] *)
Definition gt (self : Comparator) : res (list bool) :=
  ps ← zip_ (x self) (compare self) ;
  res_mapM (fun p : pyval * pyval => py_gt p.1 p.2) ps.

(** [Comparator.lt()] *)
Definition lt (self : Comparator) : res (list bool) :=
  ps ← zip_ (x self) (compare self) ;
  res_mapM (fun p : pyval * pyval => py_lt p.1 p.2) ps.

(** [Comparator.eq()] *)
Definition eq (self : Comparator) : res (list bool) :=
  ps ← zip_ (x self) (compare self) ;
  res_mapM (fun p : pyval * pyval => Ok (py_eq p.1 p.2)) ps.

(** [Comparator.ne()] *)
Definition ne (self : Comparator) : res (list bool) :=
  ps ← zip_ (x self) (compare self) ;
  res_mapM (fun p : pyval * pyval => Ok (negb (py_eq p.1 p.2))) ps.

(** [Comparator.ge()] *)
Definition ge (self : Comparator) : res (list bool) :=
  ps ← zip_ (x self) (compare self) ;
  res_mapM (fun p : pyval * pyval => py_ge p.1 p.2) ps.

(** [Comparator.le()] *)
Definition le (self : Comparator) : res (list bool) :=
  ps ← zip_ (x self) (compare self) ;
  res_mapM (fun p : pyval * pyval => py_le p.1 p.2) ps.

(** [i in values] *)
Definition py_in (i values : pyval) : res bool :=
  match values with
  | VList l => Ok (existsb (py_eq i) l)
  | _ => Raise (TypeError (String.append "argument of type '"
                             (String.append (type_name values) "' is not iterable")))
  end.

(** [Comparator.isin(values)]: [[i in values for i in self.x]] *)
Definition isin (self : Comparator) (values : pyval) : res (list bool) :=
  xs ← iter (x self) ;
  res_mapM (fun i => py_in i values) xs.

(** [Comparator.notin(values)]: [[i not in values for i in self.x]] *)
Definition notin (self : Comparator) (values : pyval) : res (list bool) :=
  xs ← iter (x self) ;
  res_mapM (fun i => b ← py_in i values ; Ok (negb b)) xs.

(** [Comparator.isnull()]: [[i is None for i in self.x]] *)
Definition isnull (self : Comparator) : res (list bool) :=
  xs ← iter (x self) ;
  res_mapM (fun i => Ok (negb (is_not_None i))) xs.

(** [Comparator.notnull()]: [[i is not None for i in self.x]] *)
Definition notnull (self : Comparator) : res (list bool) :=
  xs ← iter (x self) ;
  res_mapM (fun i => Ok (is_not_None i)) xs.

End Comparison.

(** ** Data frames of the local backends

    [Interrogator] drives a local table through Narwhals expressions.  Every
    expression it builds is elementwise, so a frame is kept as its list of
    rows and an expression as a function of one row.  A frame with no rows
    carries no schema in this model. *)

Module Frames.

(** The two local engines the source distinguishes with
    [is_pandas_dataframe] / [is_polars_dataframe]. *)
Inductive backend : Type := Pandas | Polars.

(** A cell: a missing value (Polars [null], pandas [NaN]/[None]), a
    number, a boolean or a string. *)
Inductive cell : Type :=
  | CNull
  | CNum (z : Z)
  | CBool (b : bool)
  | CStr (s : string).

#[global] Instance cell_eq_dec : EqDecision cell.
Proof. solve_decision. Defined.

Record frame : Type := mkFrame {
  kind : backend;
  rows : list (gmap string cell)
}.

(** An expression yields a cell per row, or fails (column not found,
    operands of the wrong type). *)
Definition expr : Type := backend → gmap string cell → option cell.

Inductive cmp_op : Type := Gt | Lt | Eq | Ne | Ge | Le.

(** Numbers are integers and compare exactly.  The engines do so as long
    as the values are ones that every column type involved holds exactly
    (see [Rowwise.exact]); beyond that a [float64] column rounds and a
    64-bit literal overflows. *)
Definition cmp_num (op : cmp_op) (a b : Z) : bool :=
  match op with
  | Gt => Z.ltb b a
  | Lt => Z.ltb a b
  | Eq => Z.eqb a b
  | Ne => negb (Z.eqb a b)
  | Ge => Z.leb b a
  | Le => Z.leb a b
  end.

Definition cmp_str (op : cmp_op) (a b : string) : bool :=
  match op with
  | Gt => String.ltb b a
  | Lt => String.ltb a b
  | Eq => bool_decide (a = b)
  | Ne => negb (bool_decide (a = b))
  | Ge => String.leb b a
  | Le => String.leb a b
  end.

(** A comparison with a missing operand: Polars propagates the null;
    pandas compares with [NaN], which is unequal to everything and
    ordered with nothing. *)
Definition cmp_missing (k : backend) (op : cmp_op) : cell :=
  match k with
  | Polars => CNull
  | Pandas => CBool (match op with Ne => true | _ => false end)
  end.

(** A comparison of a number with a string: pandas answers [==] with
    [False] and [!=] with [True] and raises on an ordering; Polars
    raises. *)
Definition cmp_mixed (k : backend) (op : cmp_op) : option cell :=
  match k, op with
  | Pandas, Eq => Some (CBool false)
  | Pandas, Ne => Some (CBool true)
  | _, _ => None
  end.

(** The comparison of two cells.  A boolean against a number or a string
    is left undefined, so that the model fails where an engine may still
    answer; the properties below keep to integer and string columns whose
    names are not those of the helper columns. *)
Definition cmp_cell (k : backend) (op : cmp_op) (a b : cell) : option cell :=
  match a, b with
  | CNum x, CNum y => Some (CBool (cmp_num op x y))
  | CStr x, CStr y => Some (CBool (cmp_str op x y))
  | CBool x, CBool y => Some (CBool (cmp_num op (Z.b2z x) (Z.b2z y)))
  | CNull, _ | _, CNull => Some (cmp_missing k op)
  | CNum _, CStr _ | CStr _, CNum _ => cmp_mixed k op
  | _, _ => None
  end.

(** [&], [|] and [~] on boolean cells follow Kleene's three-valued
    logic. *)
Definition and_cell (a b : cell) : option cell :=
  match a, b with
  | CBool false, (CBool _ | CNull) | CNull, CBool false => Some (CBool false)
  | CBool true, CBool b' => Some (CBool b')
  | CBool true, CNull | CNull, (CBool true | CNull) => Some CNull
  | _, _ => None
  end.

Definition or_cell (a b : cell) : option cell :=
  match a, b with
  | CBool true, (CBool _ | CNull) | CNull, CBool true => Some (CBool true)
  | CBool false, CBool b' => Some (CBool b')
  | CBool false, CNull | CNull, (CBool false | CNull) => Some CNull
  | _, _ => None
  end.

Definition not_cell (a : cell) : option cell :=
  match a with
  | CBool b => Some (CBool (negb b))
  | CNull => Some CNull
  | _ => None
  end.

(** [nw.col(name)] *)
Definition col (name : string) : expr := fun _ r => r !! name.

(** [nw.lit(v)], and a Python scalar used as an operand. *)
Definition lit (c : cell) : expr := fun _ _ => Some c.

(** [e.is_null()] *)
Definition is_null (e : expr) : expr := fun k r =>
  c ← e k r; Some (CBool (bool_decide (c = CNull))).

Definition cmp (op : cmp_op) (e1 e2 : expr) : expr := fun k r =>
  a ← e1 k r; b ← e2 k r; cmp_cell k op a b.

Definition and_ (e1 e2 : expr) : expr := fun k r =>
  a ← e1 k r; b ← e2 k r; and_cell a b.

Definition or_ (e1 e2 : expr) : expr := fun k r =>
  a ← e1 k r; b ← e2 k r; or_cell a b.

Definition not_ (e : expr) : expr := fun k r =>
  a ← e k r; not_cell a.

(** [nw.when(c).then(a).otherwise(b)]: both branches are computed, the
    condition selects; a null condition selects [otherwise]. *)
Definition when_then_otherwise (c a b : expr) : expr := fun k r =>
  cv ← c k r; av ← a k r; bv ← b k r;
  match cv with
  | CBool true => Some av
  | CBool false | CNull => Some bv
  | _ => None
  end.

(** [e.is_in(values)]: Polars keeps a null, pandas' [isin] answers
    [False] for it. *)
Definition is_in (e : expr) (values : list Z) : expr := fun k r =>
  c ← e k r;
  match c with
  | CNum z => Some (CBool (bool_decide (z ∈ values)))
  | CNull => Some (match k with Polars => CNull | Pandas => CBool false end)
  | _ => None
  end.

(** [e.str.contains(pattern)] on a string column.  The engine's matcher
    [re_match pattern s] decides a string; [on_missing] is what the
    engine's vectorised matcher does with a missing value: the cell it
    leaves in its place (pandas a [NaN], Polars a null), or [None] for a
    matcher that raises on it. *)
Definition str_contains (re_match : string → string → bool)
    (on_missing : option cell) (e : expr) (pattern : string) : expr := fun k r =>
  c ← e k r;
  match c with
  | CStr s => Some (CBool (re_match pattern s))
  | CNull => on_missing
  | _ => None
  end.

Declare Scope expr_scope.
Delimit Scope expr_scope with E.
Bind Scope expr_scope with expr.
Notation "a &: b" := (and_ a b) (at level 40, left associativity) : expr_scope.
Notation "a |: b" := (or_ a b) (at level 50, left associativity) : expr_scope.
Notation "~: a" := (not_ a) (at level 35, right associativity) : expr_scope.

(** A frame operation that rewrites every row on its own. *)
Definition map_rows (g : backend → gmap string cell → option (gmap string cell))
    (f : frame) : option frame :=
  rows' ← mapM (g (kind f)) (rows f);
  Some {| kind := kind f; rows := rows' |}.

Definition assign (named : list (string * expr)) (k : backend)
    (r : gmap string cell) : option (gmap string cell) :=
  vals ← mapM (fun ne : string * expr => c ← ne.2 k r; Some (ne.1, c)) named;
  Some (foldl (fun r' (kv : string * cell) => <[kv.1 := kv.2]> r') r vals).

Definition remove (names : list string) (k : backend)
    (r : gmap string cell) : option (gmap string cell) :=
  if forallb (fun n => bool_decide (is_Some (r !! n))) names
  then Some (foldr delete r names)
  else None.

(** [df.with_columns(name1=e1, name2=e2, ...)]: every expression reads
    the incoming frame; the results are then written in order. *)
Definition with_columns (named : list (string * expr)) (f : frame) : option frame :=
  map_rows (assign named) f.

(** [df.drop(name1, name2, ...)]: fails on a column that is absent. *)
Definition drop (names : list string) (f : frame) : option frame :=
  map_rows (remove names) f.

(** [df.filter(e)]: the rows on which [e] is [True]. *)
Definition filter_rows (e : expr) (f : frame) : option frame :=
  keep ← mapM (e (kind f)) (rows f);
  Some {| kind := kind f;
          rows := fst <$> filter (fun rc : gmap string cell * cell => rc.2 = CBool true)
                            (zip (rows f) keep) |}.

(** [df[name].to_list()] *)
Definition to_list (name : string) (f : frame) : option (list cell) :=
  mapM (fun r : gmap string cell => r !! name) (rows f).

Definition is_pandas_dataframe (f : frame) : bool :=
  match kind f with Pandas => true | Polars => false end.

Definition is_polars_dataframe (f : frame) : bool :=
  match kind f with Polars => true | Pandas => false end.

End Frames.

(** ** [Interrogator]: the branch taken for local backends

    Each method below is the part of the source method that runs when
    [tbl_type] is not one of [IBIS_BACKENDS]; it returns the frame with the
    added [pb_is_good_] column. *)

Module Interrogation.
Import Frames.
Local Open Scope expr_scope.

(** A comparison operand: a Python number, or a [Column] naming another
    column of the table. *)
Inductive operand : Type :=
  | Literal (v : Z)
  | Column (name : string).

Record Interrogator : Type := mkInterrogator {
  x : frame;
  column : string;
  compare : operand;
  set : list Z;
  pattern : string;
  low : operand;
  high : operand;
  inclusive : bool * bool;
  na_pass : bool
}.

(** [isinstance(compare, Column)] *)
Definition is_Column (o : operand) : bool :=
  match o with Column _ => true | Literal _ => false end.

(** [_get_compare_expr_nw] *)
Definition _get_compare_expr_nw (compare : operand) : expr :=
  match compare with
  | Column name => col name
  | Literal v => lit (CNum v)
  end.

(** [_column_has_null_values] *)
Definition _column_has_null_values (table : frame) (column : string) : option bool :=
  cells ← to_list column table;
  let null_count := List.length (filter (fun c => c = CNull) cells) in
  Some (negb (Nat.eqb null_count 0)).

(** [nw.col(compare.name).is_null() & na_pass if isinstance(compare, Column)
     else nw.lit(False)] *)
Definition operand_null_pass (o : operand) (na_pass : bool) : expr :=
  match o with
  | Column name => is_null (col name) &: lit (CBool na_pass)
  | Literal _ => lit (CBool false)
  end.

(** [nw.col(o.name).is_null() if isinstance(o, Column) else nw.lit(False)] *)
Definition operand_is_null (o : operand) : expr :=
  match o with
  | Column name => is_null (col name)
  | Literal _ => lit (CBool false)
  end.

(** A statement guarded by [if b:]. *)
Definition when_ (b : bool) (step : frame → option frame) (f : frame) : option frame :=
  if b then step f else Some f.

Definition gt (self : Interrogator) : option frame :=
  let compare_expr := _get_compare_expr_nw (compare self) in
  tbl ← with_columns
    [ ("pb_is_good_1", is_null (col (column self)) &: lit (CBool (na_pass self)));
      ("pb_is_good_2", operand_null_pass (compare self) (na_pass self));
      ("pb_is_good_3", cmp Gt (col (column self)) compare_expr) ] (x self);
  tbl ← with_columns
    [ ("pb_is_good_", col "pb_is_good_1" |: col "pb_is_good_2" |: col "pb_is_good_3") ] tbl;
  drop ["pb_is_good_1"; "pb_is_good_2"; "pb_is_good_3"] tbl.

Definition lt (self : Interrogator) : option frame :=
  let compare_expr := _get_compare_expr_nw (compare self) in
  tbl ← with_columns
    [ ("pb_is_good_1", is_null (col (column self)) &: lit (CBool (na_pass self)));
      ("pb_is_good_2", operand_null_pass (compare self) (na_pass self));
      ("pb_is_good_3", cmp Lt (col (column self)) compare_expr) ] (x self);
  tbl ← with_columns
    [ ("pb_is_good_", col "pb_is_good_1" |: col "pb_is_good_2" |: col "pb_is_good_3") ] tbl;
  drop ["pb_is_good_1"; "pb_is_good_2"; "pb_is_good_3"] tbl.

Definition ge (self : Interrogator) : option frame :=
  let compare_expr := _get_compare_expr_nw (compare self) in
  tbl ← with_columns
    [ ("pb_is_good_1", is_null (col (column self)) &: lit (CBool (na_pass self)));
      ("pb_is_good_2", operand_null_pass (compare self) (na_pass self));
      ("pb_is_good_3", cmp Ge (col (column self)) compare_expr) ] (x self);
  tbl ← with_columns
    [ ("pb_is_good_", col "pb_is_good_1" |: col "pb_is_good_2" |: col "pb_is_good_3") ] tbl;
  drop ["pb_is_good_1"; "pb_is_good_2"; "pb_is_good_3"] tbl.

Definition le (self : Interrogator) : option frame :=
  let compare_expr := _get_compare_expr_nw (compare self) in
  tbl ← with_columns
    [ ("pb_is_good_1", is_null (col (column self)) &: lit (CBool (na_pass self)));
      ("pb_is_good_2", operand_null_pass (compare self) (na_pass self));
      ("pb_is_good_3", cmp Le (col (column self)) compare_expr) ] (x self);
  tbl ← with_columns
    [ ("pb_is_good_", col "pb_is_good_1" |: col "pb_is_good_2" |: col "pb_is_good_3") ] tbl;
  drop ["pb_is_good_1"; "pb_is_good_2"; "pb_is_good_3"] tbl.

(** [ne], column operand, CASE 1: only the reference column has nulls. *)
Definition ne_case1 (self : Interrogator) (name : string) : option frame :=
  tbl ← (if is_pandas_dataframe (x self)
         then with_columns
                [ ("pb_is_good_1", is_null (col (column self)));
                  ("pb_is_good_2", cmp Ne (lit (CStr (column self))) (col name)) ] (x self)
         else with_columns
                [ ("pb_is_good_1", is_null (col (column self)));
                  ("pb_is_good_2", cmp Ne (col (column self)) (col name)) ] (x self));
  tbl ← when_ (negb (na_pass self))
          (with_columns
             [ ("pb_is_good_2", col "pb_is_good_2" &: ~: col "pb_is_good_1") ]) tbl;
  tbl ← when_ (is_polars_dataframe (x self))
          (fun tbl =>
             tbl ← with_columns
               [ ("pb_is_good_2",
                  when_then_otherwise (is_null (col "pb_is_good_2"))
                    (lit (CBool false)) (col "pb_is_good_2")) ] tbl;
             when_ (na_pass self)
               (with_columns
                  [ ("pb_is_good_2", col "pb_is_good_1" |: col "pb_is_good_2") ]) tbl) tbl;
  tbl ← with_columns [ ("pb_is_good_", col "pb_is_good_2") ] tbl;
  drop ["pb_is_good_1"; "pb_is_good_2"] tbl.

(** [ne], column operand, CASE 2: only the comparison column has nulls. *)
Definition ne_case2 (self : Interrogator) (name : string) : option frame :=
  tbl ← (if is_pandas_dataframe (x self)
         then with_columns
                [ ("pb_is_good_1", cmp Ne (col (column self)) (lit (CStr name)));
                  ("pb_is_good_2", is_null (col name)) ] (x self)
         else with_columns
                [ ("pb_is_good_1", cmp Ne (col (column self)) (col name));
                  ("pb_is_good_2", is_null (col name)) ] (x self));
  tbl ← when_ (negb (na_pass self))
          (with_columns
             [ ("pb_is_good_1", col "pb_is_good_1" &: ~: col "pb_is_good_2") ]) tbl;
  tbl ← when_ (is_polars_dataframe (x self))
          (when_ (na_pass self)
             (with_columns
                [ ("pb_is_good_1", col "pb_is_good_1" |: col "pb_is_good_2") ])) tbl;
  tbl ← with_columns [ ("pb_is_good_", col "pb_is_good_1") ] tbl;
  drop ["pb_is_good_1"; "pb_is_good_2"] tbl.

(** [ne], column operand, CASE 3: both columns have nulls. *)
Definition ne_case3 (self : Interrogator) (name : string) : option frame :=
  tbl ← with_columns
    [ ("pb_is_good_1", is_null (col (column self)));
      ("pb_is_good_2", is_null (col name));
      ("pb_is_good_3", cmp Ne (col (column self)) (col name)) ] (x self);
  tbl ← when_ (negb (na_pass self))
          (with_columns
             [ ("pb_is_good_3",
                col "pb_is_good_3" &: ~: col "pb_is_good_1" &: ~: col "pb_is_good_2") ]) tbl;
  tbl ← when_ (is_polars_dataframe (x self))
          (when_ (na_pass self)
             (with_columns
                [ ("pb_is_good_3",
                   when_then_otherwise (col "pb_is_good_1" |: col "pb_is_good_2")
                     (lit (CBool true)) (lit (CBool false))) ])) tbl;
  tbl ← with_columns [ ("pb_is_good_", col "pb_is_good_3") ] tbl;
  drop ["pb_is_good_1"; "pb_is_good_2"; "pb_is_good_3"] tbl.

(** [ne], literal operand, the reference column has nulls. *)
Definition ne_literal_nulls (self : Interrogator) (v : Z) : option frame :=
  if is_pandas_dataframe (x self) then
    tbl ← with_columns
      [ ("pb_is_good_1", is_null (col (column self)));
        ("pb_is_good_2", cmp Ne (lit (CStr (column self))) (lit (CNum v))) ] (x self);
    tbl ← when_ (negb (na_pass self))
            (with_columns
               [ ("pb_is_good_2", col "pb_is_good_2" &: ~: col "pb_is_good_1") ]) tbl;
    tbl ← with_columns [ ("pb_is_good_", col "pb_is_good_2") ] tbl;
    drop ["pb_is_good_1"; "pb_is_good_2"] tbl
  else
    tbl ← with_columns
      [ ("pb_is_good_1", is_null (col (column self)));
        ("pb_is_good_2", lit (CBool (na_pass self))) ] (x self);
    tbl ← with_columns
      [ ("pb_is_good_3", cmp Ne (col (column self)) (lit (CNum v))) ] tbl;
    tbl ← with_columns
      [ ("pb_is_good_",
         (col "pb_is_good_1" &: col "pb_is_good_2")
         |: (col "pb_is_good_3" &: ~: col "pb_is_good_1")) ] tbl;
    drop ["pb_is_good_1"; "pb_is_good_2"; "pb_is_good_3"] tbl.

Definition ne (self : Interrogator) : option frame :=
  ref_col_has_null_vals ← _column_has_null_values (x self) (column self);
  cmp_col_has_null_vals ←
    match compare self with
    | Column name => _column_has_null_values (x self) name
    | Literal _ => Some false
    end;
  if negb ref_col_has_null_vals && negb cmp_col_has_null_vals then
    match compare self with
    | Column name =>
        with_columns
          [ ("pb_is_good_", cmp Ne (col (column self)) (_get_compare_expr_nw (compare self))) ]
          (x self)
    | Literal v =>
        with_columns
          [ ("pb_is_good_", cmp Ne (col (column self)) (lit (CNum v))) ] (x self)
    end
  else
    match compare self with
    | Column name =>
        if ref_col_has_null_vals && negb cmp_col_has_null_vals then ne_case1 self name
        else if negb ref_col_has_null_vals && cmp_col_has_null_vals then ne_case2 self name
        else ne_case3 self name
    | Literal v =>
        if negb ref_col_has_null_vals
        then with_columns
               [ ("pb_is_good_", cmp Ne (col (column self)) (lit (CNum v))) ] (x self)
        else ne_literal_nulls self v
    end.

Definition between (self : Interrogator) : option frame :=
  let low_val := _get_compare_expr_nw (low self) in
  let high_val := _get_compare_expr_nw (high self) in
  tbl ← with_columns
    [ ("pb_is_good_1", is_null (col (column self)));
      ("pb_is_good_2", operand_is_null (low self));
      ("pb_is_good_3", operand_is_null (high self));
      ("pb_is_good_4", lit (CBool (na_pass self))) ] (x self);
  tbl ← (if (inclusive self).1
         then with_columns [ ("pb_is_good_5", cmp Ge (col (column self)) low_val) ] tbl
         else with_columns [ ("pb_is_good_5", cmp Gt (col (column self)) low_val) ] tbl);
  tbl ← (if (inclusive self).2
         then with_columns [ ("pb_is_good_6", cmp Le (col (column self)) high_val) ] tbl
         else with_columns [ ("pb_is_good_6", cmp Lt (col (column self)) high_val) ] tbl);
  tbl ← with_columns
    [ ("pb_is_good_",
       ((col "pb_is_good_1" |: col "pb_is_good_2" |: col "pb_is_good_3")
        &: col "pb_is_good_4")
       |: (col "pb_is_good_5" &: col "pb_is_good_6")) ] tbl;
  drop ["pb_is_good_1"; "pb_is_good_2"; "pb_is_good_3";
        "pb_is_good_4"; "pb_is_good_5"; "pb_is_good_6"] tbl.

Definition outside (self : Interrogator) : option frame :=
  let low_val := _get_compare_expr_nw (low self) in
  let high_val := _get_compare_expr_nw (high self) in
  tbl ← with_columns
    [ ("pb_is_good_1", is_null (col (column self)));
      ("pb_is_good_2", operand_is_null (low self));
      ("pb_is_good_3", operand_is_null (high self));
      ("pb_is_good_4", lit (CBool (na_pass self))) ] (x self);
  tbl ← (if (inclusive self).1
         then with_columns [ ("pb_is_good_5", cmp Lt (col (column self)) low_val) ] tbl
         else with_columns [ ("pb_is_good_5", cmp Le (col (column self)) low_val) ] tbl);
  tbl ← (if (inclusive self).2
         then with_columns [ ("pb_is_good_6", cmp Gt (col (column self)) high_val) ] tbl
         else with_columns [ ("pb_is_good_6", cmp Ge (col (column self)) high_val) ] tbl);
  tbl ← with_columns
    [ ("pb_is_good_5",
       when_then_otherwise (is_null (col "pb_is_good_5"))
         (lit (CBool false)) (col "pb_is_good_5"));
      ("pb_is_good_6",
       when_then_otherwise (is_null (col "pb_is_good_6"))
         (lit (CBool false)) (col "pb_is_good_6")) ] tbl;
  tbl ← with_columns
    [ ("pb_is_good_",
       ((col "pb_is_good_1" |: col "pb_is_good_2" |: col "pb_is_good_3")
        &: col "pb_is_good_4")
       |: ((col "pb_is_good_5" &: ~: col "pb_is_good_3")
           |: col "pb_is_good_6" &: ~: col "pb_is_good_2")) ] tbl;
  drop ["pb_is_good_1"; "pb_is_good_2"; "pb_is_good_3";
        "pb_is_good_4"; "pb_is_good_5"; "pb_is_good_6"] tbl.

Definition isin (self : Interrogator) : option frame :=
  with_columns [ ("pb_is_good_", is_in (col (column self)) (set self)) ] (x self).

Definition notin (self : Interrogator) : option frame :=
  tbl ← with_columns [ ("pb_is_good_", is_in (col (column self)) (set self)) ] (x self);
  with_columns [ ("pb_is_good_", ~: col "pb_is_good_") ] tbl.

Section Regex.
(** The engine's regular-expression matcher, and what it does with a
    missing value. *)
Variable re_match : string → string → bool.
Variable on_missing : option cell.

Definition regex (self : Interrogator) : option frame :=
  tbl ← with_columns
    [ ("pb_is_good_1", is_null (col (column self)) &: lit (CBool (na_pass self)));
      ("pb_is_good_2",
       when_then_otherwise (~: is_null (col (column self)))
         (str_contains re_match on_missing (col (column self)) (pattern self))
         (lit (CBool false))) ] (x self);
  tbl ← with_columns
    [ ("pb_is_good_", col "pb_is_good_1" |: col "pb_is_good_2") ] tbl;
  drop ["pb_is_good_1"; "pb_is_good_2"] tbl.
End Regex.

(** [Interrogator.null], local branch. *)
Definition null (self : Interrogator) : option frame :=
  with_columns [ ("pb_is_good_", is_null (col (column self))) ] (x self).

(** [Interrogator.not_null], local branch. *)
Definition not_null (self : Interrogator) : option frame :=
  with_columns [ ("pb_is_good_", ~: is_null (col (column self))) ] (x self).

(** The [pb_is_good_] column of a result table. *)
Definition is_good (tbl : frame) : option (list cell) := to_list "pb_is_good_" tbl.

End Interrogation.

(** ** [Validate]: the validation plan and its interrogation *)

Module Validation.
Import Frames.
Local Open Scope Q_scope.

(** *** Thresholds *)

(** A threshold level is an absolute count of failing test units or a
    fraction of them. *)
Inductive bound : Type :=
  | AbsCount (c : Z)
  | Fraction (q : Q).

Record Thresholds : Type := mkThresholds {
  warn_at : option bound;
  stop_at : option bound;
  notify_at : option bound
}.

Inductive level : Type := Warn | Stop | Notify.

Definition _get_threshold_value (th : Thresholds) (l : level) : option bound :=
  match l with
  | Warn => warn_at th
  | Stop => stop_at th
  | Notify => notify_at th
  end.

(** Modelled from the spec: [Thresholds._threshold_result] of
    [pointblank/thresholds.py], which is not among the sources.  A level
    is exceeded when the observed failing count or fraction meets or
    exceeds the configured bound; an unset level never triggers. *)
Definition _threshold_result (th : Thresholds) (fraction_failing : Q)
    (test_units : Z) (l : level) : bool :=
  match _get_threshold_value th l with
  | None => false
  | Some (Fraction q) => Qle_bool q fraction_failing
  | Some (AbsCount c) => Qle_bool (inject_Z c) (fraction_failing * inject_Z test_units)
  end.

(** Modelled from the spec: [_convert_abs_count_to_fraction] of
    [pointblank/thresholds.py], which is not among the sources: the
    fraction [value / test_units], reported as [0] when there are no test
    units. *)
Definition _convert_abs_count_to_fraction (value test_units : Z) : Q :=
  if Z.eqb test_units 0 then 0 else Qmake value (Z.to_pos test_units).

(** *** Validation steps *)

(** The [values] of a step: one operand, a pair of bounds, or a set. *)
Inductive step_values : Type :=
  | NoValues
  | OneValue (v : Interrogation.operand)
  | TwoValues (left right : Interrogation.operand)
  | SetValues (s : list Z).

(** The dataclass [_ValidationInfo] (the fields [i_o], [step_id], [sha1],
    [label] and [brief], which nothing reads or writes, are left out). *)
Record _ValidationInfo : Type := mkValidationInfo {
  (* validation plan *)
  i : option Z;
  assertion_type : string;
  column : string;
  values : step_values;
  inclusive : option (bool * bool);
  na_pass : option bool;
  pre : option (frame → frame);
  thresholds : Thresholds;
  active : bool;
  (* interrogation results *)
  all_passed : option bool;
  n : option Z;
  n_passed : option Z;
  n_failed : option Z;
  f_passed : option Q;
  f_failed : option Q;
  warn : option bool;
  stop : option bool;
  notify : option bool;
  tbl_checked : option frame;
  extract : option frame;
  time_processed : option string;
  proc_duration_s : option Q
}.

(** [_ValidationInfo(assertion_type=..., column=..., ...)]: every field
    that is not given keeps its default [None]. *)
Definition new_ValidationInfo (assertion_type column : string)
    (values : step_values) (inclusive : option (bool * bool))
    (na_pass : option bool) (pre : option (frame → frame))
    (thresholds : Thresholds) (active : bool) : _ValidationInfo :=
  {| i := None; assertion_type := assertion_type; column := column;
     values := values; inclusive := inclusive; na_pass := na_pass;
     pre := pre; thresholds := thresholds; active := active;
     all_passed := None; n := None; n_passed := None; n_failed := None;
     f_passed := None; f_failed := None;
     warn := None; stop := None; notify := None;
     tbl_checked := None; extract := None;
     time_processed := None; proc_duration_s := None |}.

(** [validation.i = ...] *)
Definition set_i (k : Z) (v : _ValidationInfo) : _ValidationInfo :=
  {| i := Some k; assertion_type := assertion_type v; column := column v;
     values := values v; inclusive := inclusive v; na_pass := na_pass v;
     pre := pre v; thresholds := thresholds v; active := active v;
     all_passed := all_passed v; n := n v; n_passed := n_passed v;
     n_failed := n_failed v; f_passed := f_passed v; f_failed := f_failed v;
     warn := warn v; stop := stop v; notify := notify v;
     tbl_checked := tbl_checked v; extract := extract v;
     time_processed := time_processed v; proc_duration_s := proc_duration_s v |}.

(** [validation.n = ...] *)
Definition set_n (k : Z) (v : _ValidationInfo) : _ValidationInfo :=
  {| i := i v; assertion_type := assertion_type v; column := column v;
     values := values v; inclusive := inclusive v; na_pass := na_pass v;
     pre := pre v; thresholds := thresholds v; active := active v;
     all_passed := all_passed v; n := Some k; n_passed := n_passed v;
     n_failed := n_failed v; f_passed := f_passed v; f_failed := f_failed v;
     warn := warn v; stop := stop v; notify := notify v;
     tbl_checked := tbl_checked v; extract := extract v;
     time_processed := time_processed v; proc_duration_s := proc_duration_s v |}.

(** [validation.proc_duration_s = ...; validation.time_processed = ...] *)
Definition set_times (duration : Q) (processed : string) (v : _ValidationInfo)
  : _ValidationInfo :=
  {| i := i v; assertion_type := assertion_type v; column := column v;
     values := values v; inclusive := inclusive v; na_pass := na_pass v;
     pre := pre v; thresholds := thresholds v; active := active v;
     all_passed := all_passed v; n := n v; n_passed := n_passed v;
     n_failed := n_failed v; f_passed := f_passed v; f_failed := f_failed v;
     warn := warn v; stop := stop v; notify := notify v;
     tbl_checked := tbl_checked v; extract := extract v;
     time_processed := Some processed; proc_duration_s := Some duration |}.

(** The plan. *)
Record Validate : Type := mkValidate {
  data : frame;
  tbl_name : option string;
  label : option string;
  plan_thresholds : Thresholds;
  time_start : option Q;
  time_end : option Q;
  validation_info : list _ValidationInfo
}.

(** [Validate(data, tbl_name, label, thresholds)] after [__post_init__]. *)
Definition new_Validate (data : frame) (tbl_name label : option string)
    (thresholds : Thresholds) : Validate :=
  {| data := data; tbl_name := tbl_name; label := label;
     plan_thresholds := thresholds;
     time_start := None; time_end := None; validation_info := [] |}.

Definition set_validation_info (vs : list _ValidationInfo) (self : Validate) : Validate :=
  {| data := data self; tbl_name := tbl_name self; label := label self;
     plan_thresholds := plan_thresholds self;
     time_start := time_start self; time_end := time_end self;
     validation_info := vs |}.

(** [Validate._add_validation] *)
Definition _add_validation (self : Validate) (validation_info' : _ValidationInfo)
  : Validate :=
  let validation_info' :=
    set_i (Z.of_nat (length (validation_info self)) + 1)%Z validation_info' in
  set_validation_info (validation_info self ++ [validation_info']) self.

(** [thresholds = self.thresholds if thresholds is None else ...] *)
Definition step_thresholds (self : Validate) (thresholds : option Thresholds)
  : Thresholds :=
  match thresholds with
  | None => plan_thresholds self
  | Some th => th
  end.

(** [Validate.col_vals_gt] *)
Definition col_vals_gt (self : Validate) (column : string) (value : Z)
    (na_pass : bool) (pre : option (frame → frame))
    (thresholds : option Thresholds) (active : bool) : Validate :=
  _add_validation self
    (new_ValidationInfo "col_vals_gt" column (OneValue (Interrogation.Literal value))
       None (Some na_pass) pre (step_thresholds self thresholds) active).

(** [Validate.col_vals_between] *)
Definition col_vals_between (self : Validate) (column : string) (left right : Z)
    (inclusive : bool * bool) (na_pass : bool) (pre : option (frame → frame))
    (thresholds : option Thresholds) (active : bool) : Validate :=
  _add_validation self
    (new_ValidationInfo "col_vals_between" column
       (TwoValues (Interrogation.Literal left) (Interrogation.Literal right))
       (Some inclusive) (Some na_pass) pre (step_thresholds self thresholds) active).

(** [Validate.col_vals_in_set] *)
Definition col_vals_in_set (self : Validate) (column : string) (set : list Z)
    (pre : option (frame → frame)) (thresholds : option Thresholds)
    (active : bool) : Validate :=
  _add_validation self
    (new_ValidationInfo "col_vals_in_set" column (SetValues set)
       None None pre (step_thresholds self thresholds) active).

(** *** Interrogation *)

(** Python's truth value of a cell of a result list. *)
Definition truthy (c : cell) : bool :=
  match c with
  | CNull => false
  | CBool b => b
  | CNum z => negb (Z.eqb z 0)
  | CStr s => negb (bool_decide (s = EmptyString))
  end.

(** [c == b] for a Python boolean [b], as [list.count] tests it. *)
Definition equals_bool (b : bool) (c : cell) : bool :=
  match c with
  | CBool b' => Bool.eqb b b'
  | CNum z => Z.eqb z (Z.b2z b)
  | _ => false
  end.

(** [results_list.count(b)] *)
Definition count (b : bool) (results_list : list cell) : Z :=
  Z.of_nat (length (filter (fun c => equals_bool b c = true) results_list)).

(** The fields written once the results of an active step are in. *)
Definition set_results (results_tbl : frame) (results_list : list cell)
    (extract' : option frame) (v : _ValidationInfo) : _ValidationInfo :=
  let n' := Z.of_nat (length results_list) in
  let n_passed' := count true results_list in
  let n_failed' := count false results_list in
  let f_passed' := _convert_abs_count_to_fraction n_passed' n' in
  let f_failed' := _convert_abs_count_to_fraction n_failed' n' in
  {| i := i v; assertion_type := assertion_type v; column := column v;
     values := values v; inclusive := inclusive v; na_pass := na_pass v;
     pre := pre v; thresholds := thresholds v; active := active v;
     all_passed := Some (forallb truthy results_list);
     n := Some n'; n_passed := Some n_passed'; n_failed := Some n_failed';
     f_passed := Some f_passed'; f_failed := Some f_failed';
     warn := Some (_threshold_result (thresholds v) f_failed' n' Warn);
     stop := Some (_threshold_result (thresholds v) f_failed' n' Stop);
     notify := Some (_threshold_result (thresholds v) f_failed' n' Notify);
     tbl_checked := Some results_tbl;
     extract := match extract' with Some e => Some e | None => extract v end;
     time_processed := time_processed v; proc_duration_s := proc_duration_s v |}.

Section Interrogate.
(** The clock: [now t] is the [t]-th reading of
    [datetime.datetime.now(datetime.timezone.utc)], in seconds. *)
Variable now : nat → Q.
(** [end_time.isoformat(timespec="milliseconds")] *)
Variable isoformat : Q → string.
(** The pre-processing stage of a step (it inspects the source text of
    [validation.pre]). *)
Variable preprocess : _ValidationInfo → frame → res frame.
(** [NumberOfTestUnits(df=df_step, column=column).get_test_units()] *)
Variable get_test_units : frame → string → res Z.
(** The dispatch on [COMPARE_TYPE_MAP] to [ColValsCompareOne],
    [ColValsCompareTwo] or [ColValsCompareSet] and its
    [get_test_results()]. *)
Variable get_test_results : frame → _ValidationInfo → res frame.
(** [type in ROW_BASED_VALIDATION_TYPES] *)
Variable row_based : string → bool.

(** The body of the loop for an active step, from the pre-processing
    stage to the extraction of the failing rows: the step as it is left,
    and the exception if one is raised on the way. *)
Definition interrogate_active (df : frame) (validation : _ValidationInfo)
  : _ValidationInfo * option pyerr :=
  match preprocess validation df with
  | Raise e => (validation, Some e)
  | Ok df_step =>
    match get_test_units df_step (column validation) with
    | Raise e => (validation, Some e)
    | Ok units =>
      let validation := set_n units validation in
      match get_test_results df_step validation with
      | Raise e => (validation, Some e)
      | Ok results_tbl =>
        match to_list "pb_is_good_" results_tbl with
        | None => (validation, Some (LibraryError "pb_is_good_"))
        | Some results_list =>
          if row_based (assertion_type validation) then
            match (tbl ← filter_rows
                           (cmp Eq (col "pb_is_good_") (lit (CBool false))) results_tbl;
                   drop ["pb_is_good_"] tbl) with
            | None =>
                (set_results results_tbl results_list None validation,
                 Some (LibraryError "extract"))
            | Some failing =>
                (set_results results_tbl results_list (Some failing) validation, None)
            end
          else (set_results results_tbl results_list None validation, None)
        end
      end
    end
  end.

(** The loop [for validation in self.validation_info] from clock
    reading [t] on: the steps as they are left, the number of clock
    readings taken, and the exception that ended the loop, if any. *)
Fixpoint interrogate_loop (df : frame) (t : nat) (steps : list _ValidationInfo)
  : list _ValidationInfo * nat * option pyerr :=
  match steps with
  | [] => ([], t, None)
  | validation :: rest =>
      let start_time := now t in
      if negb (active validation) then
        let end_time := now (S t) in
        let validation :=
          set_times (end_time - start_time) (isoformat end_time) validation in
        let '(rest', t', e) := interrogate_loop df (S (S t)) rest in
        (validation :: rest', t', e)
      else
        match interrogate_active df validation with
        | (validation, Some e) => (validation :: rest, S t, Some e)
        | (validation, None) =>
            let end_time := now (S t) in
            let validation :=
              set_times (end_time - start_time) (isoformat end_time) validation in
            let '(rest', t', e) := interrogate_loop df (S (S t)) rest in
            (validation :: rest', t', e)
        end
  end.

(** [Validate.interrogate]: the plan as it is left, and the exception
    if the call raises instead of returning. *)
Definition interrogate (self : Validate) : Validate * option pyerr :=
  let df := data self in
  let '(steps, t, e) := interrogate_loop df 1 (validation_info self) in
  ({| data := data self; tbl_name := tbl_name self; label := label self;
      plan_thresholds := plan_thresholds self;
      time_start := Some (now 0);
      time_end := match e with
                  | None => Some (now t)
                  | Some _ => time_end self
                  end;
      validation_info := steps |}, e).
End Interrogate.

(** *** Accessors *)

(** A field read by name, [getattr(validation, attr)]. *)
Inductive attr_value : Type :=
  | ANone
  | ABool (b : bool)
  | AInt (z : Z)
  | AFloat (q : Q)
  | AStr (s : string)
  | ATable (f : frame)
  | AValues (v : step_values)
  | ABools (p : bool * bool)
  | AThresholds (th : Thresholds)
  | ACallable (g : frame → frame).

Definition of_option {A} (inj : A → attr_value) (o : option A) : attr_value :=
  match o with
  | Some a => inj a
  | None => ANone
  end.

(** The fields of [_ValidationInfo] by name. *)
Definition fields : list (string * (_ValidationInfo → attr_value)) :=
  [ ("i", fun v => of_option AInt (i v));
    ("assertion_type", fun v => AStr (assertion_type v));
    ("column", fun v => AStr (column v));
    ("values", fun v => AValues (values v));
    ("inclusive", fun v => of_option ABools (inclusive v));
    ("na_pass", fun v => of_option ABool (na_pass v));
    ("pre", fun v => of_option ACallable (pre v));
    ("thresholds", fun v => AThresholds (thresholds v));
    ("active", fun v => ABool (active v));
    ("all_passed", fun v => of_option ABool (all_passed v));
    ("n", fun v => of_option AInt (n v));
    ("n_passed", fun v => of_option AInt (n_passed v));
    ("n_failed", fun v => of_option AInt (n_failed v));
    ("f_passed", fun v => of_option AFloat (f_passed v));
    ("f_failed", fun v => of_option AFloat (f_failed v));
    ("warn", fun v => of_option ABool (warn v));
    ("stop", fun v => of_option ABool (stop v));
    ("notify", fun v => of_option ABool (notify v));
    ("tbl_checked", fun v => of_option ATable (tbl_checked v));
    ("extract", fun v => of_option ATable (extract v));
    ("time_processed", fun v => of_option AStr (time_processed v));
    ("proc_duration_s", fun v => of_option AFloat (proc_duration_s v)) ].

Definition field (attr : string) : option (_ValidationInfo → attr_value) :=
  snd <$> List.find (fun nf : string * (_ValidationInfo → attr_value) =>
                       String.eqb nf.1 attr) fields.

(** [getattr(validation, attr)] *)
Definition getattr (validation : _ValidationInfo) (attr : string) : res attr_value :=
  match field attr with
  | Some get => Ok (get validation)
  | None => Raise (AttributeError attr)
  end.

(** The argument [i] of the accessors: [int | list[int] | None]. *)
Inductive step_query : Type :=
  | AllSteps
  | OneStep (i : Z)
  | SomeSteps (i : list Z).

(** A dictionary comprehension [{k: v for ...}] over its key/value pairs
    in order: a later pair replaces an earlier one with the same key. *)
Definition dict_of {V} (kvs : list (option Z * V)) : gmap (option Z) V :=
  foldl (fun d (kv : option Z * V) => <[kv.1 := kv.2]> d) ∅ kvs.

(** [validation.i in i] *)
Definition index_in (k : option Z) (i : list Z) : bool :=
  match k with
  | Some z => bool_decide (z ∈ i)
  | None => false
  end.

(** [if isinstance(i, int): i = [i]] *)
Definition as_list (i : step_query) : option (list Z) :=
  match i with
  | AllSteps => None
  | OneStep z => Some [z]
  | SomeSteps l => Some l
  end.

(** [Validate._get_validation_dict] *)
Definition _get_validation_dict (self : Validate) (i : step_query) (attr : string)
  : res (gmap (option Z) attr_value) :=
  let entry := fun validation : _ValidationInfo =>
    a ← getattr validation attr; Ok (Validation.i validation, a) in
  match as_list i with
  | None =>
      kvs ← res_mapM entry (validation_info self);
      Ok (dict_of kvs)
  | Some i =>
      kvs ← res_mapM entry
             (filter (fun validation : _ValidationInfo =>
                        index_in (Validation.i validation) i = true)
                (validation_info self));
      Ok (dict_of kvs)
  end.

(** [Validate.n], [n_passed], ... , [get_data_extracts] *)
Definition n_ (self : Validate) (i : step_query) := _get_validation_dict self i "n".
Definition n_passed_ (self : Validate) (i : step_query) :=
  _get_validation_dict self i "n_passed".
Definition n_failed_ (self : Validate) (i : step_query) :=
  _get_validation_dict self i "n_failed".
Definition f_passed_ (self : Validate) (i : step_query) :=
  _get_validation_dict self i "f_passed".
Definition f_failed_ (self : Validate) (i : step_query) :=
  _get_validation_dict self i "f_failed".
Definition warn_ (self : Validate) (i : step_query) := _get_validation_dict self i "warn".
Definition stop_ (self : Validate) (i : step_query) := _get_validation_dict self i "stop".
Definition notify_ (self : Validate) (i : step_query) :=
  _get_validation_dict self i "notify".
Definition get_data_extracts (self : Validate) (i : step_query) :=
  _get_validation_dict self i "extract".

(** *** The other registration methods, and [all_passed] *)

(** [Validate.col_vals_lt] *)
Definition col_vals_lt (self : Validate) (column : string) (value : Z)
    (na_pass : bool) (pre : option (frame → frame))
    (thresholds : option Thresholds) (active : bool) : Validate :=
  _add_validation self
    (new_ValidationInfo "col_vals_lt" column (OneValue (Interrogation.Literal value))
       None (Some na_pass) pre (step_thresholds self thresholds) active).

(** [Validate.col_vals_eq] *)
Definition col_vals_eq (self : Validate) (column : string) (value : Z)
    (na_pass : bool) (pre : option (frame → frame))
    (thresholds : option Thresholds) (active : bool) : Validate :=
  _add_validation self
    (new_ValidationInfo "col_vals_eq" column (OneValue (Interrogation.Literal value))
       None (Some na_pass) pre (step_thresholds self thresholds) active).

(** [Validate.col_vals_ne] *)
Definition col_vals_ne (self : Validate) (column : string) (value : Z)
    (na_pass : bool) (pre : option (frame → frame))
    (thresholds : option Thresholds) (active : bool) : Validate :=
  _add_validation self
    (new_ValidationInfo "col_vals_ne" column (OneValue (Interrogation.Literal value))
       None (Some na_pass) pre (step_thresholds self thresholds) active).

(** [Validate.col_vals_ge] *)
Definition col_vals_ge (self : Validate) (column : string) (value : Z)
    (na_pass : bool) (pre : option (frame → frame))
    (thresholds : option Thresholds) (active : bool) : Validate :=
  _add_validation self
    (new_ValidationInfo "col_vals_ge" column (OneValue (Interrogation.Literal value))
       None (Some na_pass) pre (step_thresholds self thresholds) active).

(** [Validate.col_vals_le] *)
Definition col_vals_le (self : Validate) (column : string) (value : Z)
    (na_pass : bool) (pre : option (frame → frame))
    (thresholds : option Thresholds) (active : bool) : Validate :=
  _add_validation self
    (new_ValidationInfo "col_vals_le" column (OneValue (Interrogation.Literal value))
       None (Some na_pass) pre (step_thresholds self thresholds) active).

(** [Validate.col_vals_outside] *)
Definition col_vals_outside (self : Validate) (column : string) (left right : Z)
    (inclusive : bool * bool) (na_pass : bool) (pre : option (frame → frame))
    (thresholds : option Thresholds) (active : bool) : Validate :=
  _add_validation self
    (new_ValidationInfo "col_vals_outside" column
       (TwoValues (Interrogation.Literal left) (Interrogation.Literal right))
       (Some inclusive) (Some na_pass) pre (step_thresholds self thresholds) active).

(** [Validate.col_vals_not_in_set] *)
Definition col_vals_not_in_set (self : Validate) (column : string) (set : list Z)
    (pre : option (frame → frame)) (thresholds : option Thresholds)
    (active : bool) : Validate :=
  _add_validation self
    (new_ValidationInfo "col_vals_not_in_set" column (SetValues set)
       None None pre (step_thresholds self thresholds) active).

(** [Validate.all_passed()]: [all(validation.all_passed for validation in
    self.validation_info)]; a step whose [all_passed] is still [None]
    counts as false. *)
Definition all_passed_ (self : Validate) : bool :=
  forallb (fun validation : _ValidationInfo => default false (all_passed validation))
    (validation_info self).

(** [Validate._get_validations] *)
Definition _get_validations (self : Validate) : list _ValidationInfo :=
  validation_info self.

End Validation.

(** ** Row-wise reading of the interrogations *)

Module Rowwise.
Import Frames Interrogation.

(** One row operation after another. *)
Definition then_rows (g h : backend → gmap string cell → option (gmap string cell))
  : backend → gmap string cell → option (gmap string cell) :=
  fun k r => g k r ≫= h k.

(** The [pb_is_good_] cell a row operation leaves in a row. *)
Definition good_of (G : backend → gmap string cell → option (gmap string cell))
    (k : backend) (r : gmap string cell) : option cell :=
  G k r ≫= (fun r' => r' !! "pb_is_good_").

(** The helper columns the interrogations add and drop again. *)
Definition helper_names : list string :=
  [ "pb_is_good_1"; "pb_is_good_2"; "pb_is_good_3";
    "pb_is_good_4"; "pb_is_good_5"; "pb_is_good_6" ].

Definition is_helper_name (c : string) : bool := bool_decide (c ∈ helper_names).

(** Every row has the column, holding a number or a missing value.  A
    frame has no schema of its own, so this says nothing of a table without
    rows. *)
Definition numeric_column (c : string) (f : frame) : bool :=
  forallb (fun r : gmap string cell =>
             match r !! c with
             | Some (CNum _ | CNull) => true
             | _ => false
             end) (rows f).



(** What [between] computes from the cell of the target column, for
    literal bounds. *)
Definition between_cell (k : backend) (incl : bool * bool) (na : bool)
    (cv : cell) (lo hi : Z) : option cell :=
  v5 ← cmp_cell k (if incl.1 then Ge else Gt) cv (CNum lo);
  v6 ← cmp_cell k (if incl.2 then Le else Lt) cv (CNum hi);
  n ← or_cell (CBool (bool_decide (cv = CNull))) (CBool false);
  n ← or_cell n (CBool false);
  p ← and_cell n (CBool na);
  q ← and_cell v5 v6;
  or_cell p q.

(** [nw.when(c.is_null()).then(False).otherwise(c)] on a cell. *)
Definition null_to_false (c : cell) : option cell :=
  if bool_decide (c = CNull) then Some (CBool false) else Some c.

(** What [outside] computes from the cell of the target column, for
    literal bounds. *)
Definition outside_cell (k : backend) (incl : bool * bool) (na : bool)
    (cv : cell) (lo hi : Z) : option cell :=
  v5 ← cmp_cell k (if incl.1 then Lt else Le) cv (CNum lo);
  v6 ← cmp_cell k (if incl.2 then Gt else Ge) cv (CNum hi);
  v5 ← null_to_false v5;
  v6 ← null_to_false v6;
  n ← or_cell (CBool (bool_decide (cv = CNull))) (CBool false);
  n ← or_cell n (CBool false);
  p ← and_cell n (CBool na);
  a ← and_cell v5 (CBool true);
  b ← and_cell v6 (CBool true);
  q ← or_cell a b;
  or_cell p q.


(** Negation of a boolean cell; a missing cell stays missing. *)
Definition negate (c : cell) : cell :=
  match c with
  | CBool b => CBool (negb b)
  | _ => c
  end.


(** What [gt], [lt], [ge] and [le] compute from the cells of the target
    column and of the column it is compared with. *)
Definition compare_cells (k : backend) (op : cmp_op) (na : bool) (cv ov : cell)
  : option cell :=
  p1 ← and_cell (CBool (bool_decide (cv = CNull))) (CBool na);
  p2 ← and_cell (CBool (bool_decide (ov = CNull))) (CBool na);
  v3 ← cmp_cell k op cv ov;
  q ← or_cell p1 p2;
  or_cell q v3.

(** A number or a missing value. *)
Definition is_numeric (c : cell) : bool :=
  match c with CNum _ | CNull => true | _ => false end.

(** What [ne] computes from the cell of the target column for a literal
    operand, on a Polars table whose column holds a missing value. *)
Definition ne_cell (na : bool) (cv : cell) (v : Z) : option cell :=
  match cv with
  | CNull => Some (CBool na)
  | CNum z => Some (CBool (negb (Z.eqb z v)))
  | _ => None
  end.

(** [z] lies between [lo] and [hi], each bound counted in when its flag
    in [incl] is set. *)
Definition in_range (incl : bool * bool) (lo hi z : Z) : bool :=
  (if incl.1 then Z.leb lo z else Z.ltb lo z) &&
  (if incl.2 then Z.leb z hi else Z.ltb z hi).

(** Every row of the table holds the column; [false] when some row
    lacks it. *)
Definition has_column (c : string) (f : frame) : bool :=
  forallb (fun r : gmap string cell => bool_decide (is_Some (r !! c))) (rows f).

(** The table has at least one row. *)
Definition has_rows (f : frame) : bool :=
  match rows f with [] => false | _ :: _ => true end.

(** The integers that an [int64] column, the [float64] column pandas
    makes of integers with a missing value among them, and a Python literal
    handed to either engine all hold exactly.  On these the engines compare
    as [cmp_num] does. *)
Definition exact (z : Z) : bool := Z.leb (- 2 ^ 53) z && Z.leb z (2 ^ 53).

(** The table has the integer column [c]: some row holds a number in it,
    which is what tells the column and its type in a frame without schema,
    and every row holds an exact integer or a missing value. *)
Definition int_column (c : string) (f : frame) : bool :=
  existsb (fun r : gmap string cell =>
             match r !! c with Some (CNum _) => true | _ => false end) (rows f) &&
  forallb (fun r : gmap string cell =>
             match r !! c with
             | Some (CNum z) => exact z
             | Some CNull => true
             | _ => false
             end) (rows f).

(** The scalar comparisons, each with the operator it applies. *)
Definition scalar_methods : list ((Interrogator → option frame) * cmp_op) :=
  [(gt, Gt); (lt, Lt); (ge, Ge); (le, Le)].

(** The columns an interrogation writes: [pb_is_good_] and the helper
    columns. *)
Definition is_result_name (c : string) : bool :=
  bool_decide (c = "pb_is_good_") || is_helper_name c.

(** [t] has the rows of [f], in order and on the same engine, with every
    column that is not a result column as it was. *)
Definition same_data (f t : frame) : Prop :=
  kind t = kind f ∧
  Forall2 (fun r r' : gmap string cell =>
             ∀ c, is_result_name c = false → r' !! c = r !! c)
    (rows f) (rows t).

(** Every row of [t] has a [pb_is_good_] cell. *)
Definition has_good (t : frame) : Prop :=
  Forall (fun r : gmap string cell => is_Some (r !! "pb_is_good_")) (rows t).

Definition keeps_data (f t : frame) : Prop := same_data f t ∧ has_good t.

(** The interrogations of a local table. *)
Definition local_methods : list (Interrogator → option frame) :=
  [ gt; lt; ge; le; ne; between; outside; isin; notin;
    null; not_null ].

End Rowwise.


(** ** Tables and checks used as concrete inputs *)

Module Examples.
Import Frames Interrogation.

(** A table with one column [x] holding [5] and a missing value. *)
Definition null_row_table (k : backend) : frame :=
  mkFrame k [ {[ "x" := CNum 5 ]}; {[ "x" := CNull ]} ].

(** The columns [a = [1, null, 3, null]] and [b = [1, 2, null, null]]. *)
Definition ab_table (k : backend) : frame :=
  mkFrame k [ <[ "a" := CNum 1 ]> {[ "b" := CNum 1 ]};
              <[ "a" := CNull ]> {[ "b" := CNum 2 ]};
              <[ "a" := CNum 3 ]> {[ "b" := CNull ]};
              <[ "a" := CNull ]> {[ "b" := CNull ]} ].

(** The columns [a = [1, null]] and [b = [2, null]]. *)
Definition distinct_pair_table (k : backend) : frame :=
  mkFrame k [ <[ "a" := CNum 1 ]> {[ "b" := CNum 2 ]};
              <[ "a" := CNull ]> {[ "b" := CNull ]} ].



(** [Interrogator(x=f, column=c, compare=v, na_pass=na)] *)
Definition literal_check (f : frame) (c : string) (v : Z) (na : bool) : Interrogator :=
  mkInterrogator f c (Literal v) [] EmptyString (Literal 0) (Literal 0) (true, true) na.

(** [Interrogator(x=f, column=c, compare=Column(other), na_pass=na)] *)
Definition column_check (f : frame) (c other : string) (na : bool) : Interrogator :=
  mkInterrogator f c (Column other) [] EmptyString (Literal 0) (Literal 0) (true, true) na.

(** [Interrogator(x=f, column=c, low=lo, high=hi, inclusive=incl, na_pass=na)] *)
Definition range_check (f : frame) (c : string) (lo hi : Z) (incl : bool * bool)
    (na : bool) : Interrogator :=
  mkInterrogator f c (Literal 0) [] EmptyString (Literal lo) (Literal hi) incl na.

(** [Interrogator(x=f, column=c, set=values)], with the [na_pass] it carries. *)
Definition set_check (f : frame) (c : string) (values : list Z) (na : bool)
  : Interrogator :=
  mkInterrogator f c (Literal 0) values EmptyString (Literal 0) (Literal 0) (true, true) na.



End Examples.

(** ** What construction of a [Comparator] is expected to do *)

Module Expected.

(** A scalar operand becomes a list of [n] copies; a list, or an operand
    that is not given, stays as it is. *)
Definition broadcast (n : nat) (v : pyval) : pyval :=
  match v with
  | VNum _ => VList (replicate n v)
  | _ => v
  end.

(** A list operand fits when it has exactly [n] elements. *)
Definition fits (n : nat) (v : pyval) : bool :=
  match v with
  | VList l => Nat.eqb (length l) n
  | _ => true
  end.

(** An operand as construction leaves it: not given, or a list of [n]
    elements. *)
Definition aligned (n : nat) (v : pyval) : bool :=
  match v with
  | VNone => true
  | VList l => Nat.eqb (length l) n
  | VNum _ => false
  end.

(** A list of Python integers. *)
Definition ints (zs : list Z) : pyval := VList (VNum <$> zs).

(** The elementwise methods that pair [x] with [compare]. *)
Definition pairing_methods : list (Comparison.Comparator → res (list bool)) :=
  [Comparison.gt; Comparison.lt; Comparison.eq; Comparison.ne;
   Comparison.ge; Comparison.le].
End Expected.

(** ** Vocabulary and concrete plans for the validation properties *)

Module Plans.
Import Frames Validation.

(** The result fields of a step other than its two time fields. *)
Definition other_results (v : _ValidationInfo) :=
  (all_passed v, n v, n_passed v, n_failed v, f_passed v, f_failed v,
   warn v, stop v, notify v, tbl_checked v, extract v).

(** All of them unset. *)
Definition no_results :
  option bool * option Z * option Z * option Z * option Q * option Q *
  option bool * option bool * option bool * option frame * option frame :=
  (None, None, None, None, None, None, None, None, None, None, None).

(** Their names, as the accessors pass them to [_get_validation_dict]. *)
Definition result_fields : list string :=
  [ "all_passed"; "n"; "n_passed"; "n_failed"; "f_passed"; "f_failed";
    "warn"; "stop"; "notify"; "tbl_checked"; "extract" ].

(** The step indices of a plan, in order. *)
Definition indices (steps : list _ValidationInfo) : list (option Z) :=
  Validation.i <$> steps.

(** The steps carry the indices [1], [2], ... that registration gives them. *)
Definition well_indexed (steps : list _ValidationInfo) : Prop :=
  indices steps = (fun j : nat => Some (Z.of_nat j)) <$> seq 1 (length steps).

(** A level is exceeded when the failing count, or the failing fraction,
    meets or exceeds its bound; an unset level is never exceeded. *)
Definition exceeded (b : option bound) (n_failed n : Z) : bool :=
  match b with
  | None => false
  | Some (AbsCount c) => Z.leb c n_failed
  | Some (Fraction q) =>
      Qle_bool q (if Z.eqb n 0 then 0%Q else Qmake n_failed (Z.to_pos n))
  end.

(** A clock that advances by one second at every reading. *)
Definition ticking (t : nat) : Q := inject_Z (Z.of_nat t).

(** A time stamp that only tells the reading apart from no reading. *)
Definition stamp (q : Q) : string := "T".

(** No pre-processing. *)
Definition keep (v : _ValidationInfo) (df : frame) : res frame := Ok df.

Definition count_rows (df : frame) (column : string) : res Z :=
  Ok (Z.of_nat (length (rows df))).

(** An executor that runs [Interrogator.gt] for a step with one literal
    value, and raises for any other step. *)
Definition run_gt (df : frame) (v : _ValidationInfo) : res frame :=
  match values v with
  | OneValue (Interrogation.Literal z) =>
      match Interrogation.gt
              (Interrogation.mkInterrogator df (column v) (Interrogation.Literal z)
                 [] EmptyString (Interrogation.Literal 0) (Interrogation.Literal 0)
                 (true, true) (default false (na_pass v))) with
      | Some tbl => Ok tbl
      | None => Raise (LibraryError "gt")
      end
  | _ => Raise (ValueError "Invalid comparison type.")
  end.

Definition row_based_all (assertion_type : string) : bool := true.

Definition no_thresholds : Thresholds := mkThresholds None None None.

(** A Polars table with one column [x]: [good] rows holding [1] and [bad]
    rows holding [-1]. *)
Definition x_table (good bad : nat) : frame :=
  mkFrame Polars (replicate good {[ "x" := CNum 1 ]} ++ replicate bad {[ "x" := CNum (-1) ]}).

(** One [col_vals_gt(column="x", value=0)] step over 100 rows, 5 of them
    failing, with the given warn level. *)
Definition plan_100_5 (warn_level : bound) : Validate :=
  col_vals_gt (new_Validate (x_table 95 5) None None no_thresholds) "x" 0 false None
    (Some (mkThresholds (Some warn_level) None None)) true.

(** One [col_vals_gt(column="x", value=0)] step and one inactive
    [col_vals_in_set] step over 10 rows, 3 of them negative. *)
Definition plan_10_3 : Validate :=
  col_vals_in_set
    (col_vals_gt (new_Validate (x_table 7 3) None None no_thresholds) "x" 0 false None
       None true)
    "x" [1; 2] None None false.

(** A plan as the public methods build it: a new [Validate], then any
    number of [col_vals_*] calls. *)
Inductive built : Validate → Prop :=
  | built_new data tbl_name label thresholds :
      built (new_Validate data tbl_name label thresholds)
  | built_gt self column value na_pass pre thresholds active :
      built self → built (col_vals_gt self column value na_pass pre thresholds active)
  | built_lt self column value na_pass pre thresholds active :
      built self → built (col_vals_lt self column value na_pass pre thresholds active)
  | built_eq self column value na_pass pre thresholds active :
      built self → built (col_vals_eq self column value na_pass pre thresholds active)
  | built_ne self column value na_pass pre thresholds active :
      built self → built (col_vals_ne self column value na_pass pre thresholds active)
  | built_ge self column value na_pass pre thresholds active :
      built self → built (col_vals_ge self column value na_pass pre thresholds active)
  | built_le self column value na_pass pre thresholds active :
      built self → built (col_vals_le self column value na_pass pre thresholds active)
  | built_between self column left right inclusive na_pass pre thresholds active :
      built self →
      built (col_vals_between self column left right inclusive na_pass pre thresholds active)
  | built_outside self column left right inclusive na_pass pre thresholds active :
      built self →
      built (col_vals_outside self column left right inclusive na_pass pre thresholds active)
  | built_in_set self column set pre thresholds active :
      built self → built (col_vals_in_set self column set pre thresholds active)
  | built_not_in_set self column set pre thresholds active :
      built self → built (col_vals_not_in_set self column set pre thresholds active).

(** The fields of a step that describe the plan. *)
Definition plan_of (v : _ValidationInfo) :=
  (Validation.i v, assertion_type v, column v, values v, inclusive v, na_pass v,
   thresholds v, active v).

(** No result and no time recorded. *)
Definition untouched (v : _ValidationInfo) : Prop :=
  other_results v = no_results ∧ time_processed v = None ∧ proc_duration_s v = None.

(** A [col_vals_in_set] step, which the executor [run_gt] refuses, followed
    by a [col_vals_gt] step. *)
Definition plan_refused : Validate :=
  col_vals_gt
    (col_vals_in_set (new_Validate (x_table 7 3) None None no_thresholds) "x" [1; 2]
       None None true)
    "x" 0 false None None true.

(** The plan [plan_10_3] after [interrogate], with a clock that ticks, no
    pre-processing, and [run_gt] as the executor. *)
Definition ran_10_3 : Validate :=
  (interrogate ticking stamp keep count_rows run_gt row_based_all plan_10_3).1.

(** The first step of a plan. *)
Definition first_step (self : Validate) : _ValidationInfo :=
  hd (new_ValidationInfo EmptyString EmptyString NoValues None None None
        no_thresholds false)
    (validation_info self).

End Plans.

(** * Properties *)

Section RowwiseFacts.
Import Frames Interrogation Rowwise.

Lemma mapM_bind_mapM {A B C} (g : A → option B) (h : B → option C) (l : list A) :
  mapM g l ≫= mapM h = mapM (fun a => g a ≫= h) l.
Proof.
  induction l as [|a l IH]; [done|].
  cbn. destruct (g a) as [b|]; cbn; [|done].
  rewrite <- IH. destruct (mapM g l) as [bs|]; cbn; [done|].
  by destruct (h b).
Qed.

Lemma map_rows_then g h f {A} (K : frame → option A) :
  map_rows g f ≫= (fun t => map_rows h t ≫= K) = map_rows (then_rows g h) f ≫= K.
Proof.
  unfold map_rows, then_rows.
  rewrite <- (mapM_bind_mapM (g (kind f)) (h (kind f))).
  by destruct (mapM (g (kind f)) (rows f)).
Qed.

Lemma map_rows_then_end g h f :
  map_rows g f ≫= (fun t => map_rows h t) = map_rows (then_rows g h) f.
Proof.
  unfold map_rows, then_rows.
  rewrite <- (mapM_bind_mapM (g (kind f)) (h (kind f))).
  by destruct (mapM (g (kind f)) (rows f)).
Qed.

Lemma map_rows_then_if g (b : bool) n o1 o2 e1 e2 f {A} (K : frame → option A) :
  map_rows g f ≫=
    (fun t => (if b then map_rows (assign [(n, cmp o1 e1 e2)]) t
               else map_rows (assign [(n, cmp o2 e1 e2)]) t) ≫= K)
  = map_rows (then_rows g (assign [(n, cmp (if b then o1 else o2) e1 e2)])) f ≫= K.
Proof. destruct b; apply map_rows_then. Qed.

Lemma is_good_map_rows G f :
  map_rows G f ≫= is_good = mapM (good_of G (kind f)) (rows f).
Proof.
  unfold map_rows, is_good, to_list, good_of.
  rewrite <- mapM_bind_mapM.
  by destruct (mapM (G (kind f)) (rows f)).
Qed.

(** A row operation that leaves a [pb_is_good_] cell in every row gives a
    table, and its [pb_is_good_] column is read off row by row. *)
Lemma map_rows_good_at G f :
  (∀ r, r ∈ rows f → is_Some (good_of G (kind f) r)) →
  ∃ t g, map_rows G f = Some t ∧ is_good t = Some g ∧
         ∀ i r, rows f !! i = Some r → g !! i = good_of G (kind f) r.
Proof.
  intros Hall.
  assert (∃ g, mapM (good_of G (kind f)) (rows f) = Some g) as [g Hg].
  { apply (mapM_is_Some_2 (good_of G (kind f)) (rows f)).
    by apply Forall_forall. }
  pose proof (is_good_map_rows G f) as E. rewrite Hg in E.
  destruct (map_rows G f) as [t|]; [|done]. cbn in E.
  exists t, g. split_and!; [done..|].
  intros i r Hi. apply mapM_Some_1 in Hg.
  destruct (Forall2_lookup_l _ _ _ _ _ Hg Hi) as (v & Hv & Hr). by rewrite Hv, Hr.
Qed.

Lemma helper_names_ne c :
  is_helper_name c = false →
  c ≠ "pb_is_good_1" ∧ c ≠ "pb_is_good_2" ∧ c ≠ "pb_is_good_3" ∧
  c ≠ "pb_is_good_4" ∧ c ≠ "pb_is_good_5" ∧ c ≠ "pb_is_good_6".
Proof.
  unfold is_helper_name, helper_names. intros H%bool_decide_eq_false.
  set_solver.
Qed.

Lemma numeric_column_lookup c f r :
  numeric_column c f = true → r ∈ rows f →
  ∃ cv, r !! c = Some cv ∧ (cv = CNull ∨ ∃ z, cv = CNum z).
Proof.
  unfold numeric_column. rewrite forallb_forall. intros H Hr.
  apply list_elem_of_In in Hr. specialize (H r Hr).
  destruct (r !! c) as [[]|]; naive_solver.
Qed.

Ltac to_rows :=
  unfold with_columns, drop;
  rewrite ?map_rows_then_if, ?map_rows_then, ?map_rows_then_end.

(** Runs a row operation on a row whose target cell is known: lookups
    are resolved and the cell computations are taken one by one, in the
    order in which the expressions reach them. *)
Ltac eval_row Hr :=
  unfold good_of, then_rows, assign, remove;
  unfold operand_is_null, operand_null_pass, _get_compare_expr_nw,
         col, lit, is_null, cmp, and_, or_, not_, when_then_otherwise;
  repeat first
    [ rewrite Hr
    | rewrite lookup_insert_eq
    | rewrite lookup_insert_ne by done
    | rewrite lookup_delete_ne by done
    | rewrite bool_decide_eq_true_2 by eauto
    | progress cbn [mbind option_bind mret option_ret foldl foldr fst snd mapM
                    forallb andb negb not_cell]
    | match goal with
      | |- context [@mbind option _ _ _ _ ?m] =>
          lazymatch m with
          | Some _ => fail
          | None => fail
          | context [@mbind] => fail
          | _ => destruct m; [|reflexivity]
          end
      end ].

Lemma between_rows self lo hi :
  low self = Literal lo → high self = Literal hi →
  is_helper_name (column self) = false →
  ∃ G, between self = map_rows G (x self) ∧
       ∀ k r cv, r !! column self = Some cv →
                 good_of G k r = between_cell k (inclusive self) (na_pass self) cv lo hi.
Proof.
  destruct self as [f c cm s p l h incl na]; cbn.
  intros -> -> Hc. apply helper_names_ne in Hc. destruct_and!.
  unfold between; cbn [Interrogation.x Interrogation.column Interrogation.low
    Interrogation.high Interrogation.inclusive Interrogation.na_pass].
  to_rows. eexists; split; [reflexivity|].
  intros k r cv Hr. unfold between_cell.
  eval_row Hr. reflexivity.
Qed.

Lemma outside_rows self lo hi :
  low self = Literal lo → high self = Literal hi →
  is_helper_name (column self) = false →
  ∃ G, outside self = map_rows G (x self) ∧
       ∀ k r cv, r !! column self = Some cv →
                 good_of G k r = outside_cell k (inclusive self) (na_pass self) cv lo hi.
Proof.
  destruct self as [f c cm s p l h incl na]; cbn.
  intros -> -> Hc. apply helper_names_ne in Hc. destruct_and!.
  unfold outside; cbn [Interrogation.x Interrogation.column Interrogation.low
    Interrogation.high Interrogation.inclusive Interrogation.na_pass].
  to_rows. eexists; split; [reflexivity|].
  intros k r cv Hr. unfold outside_cell, null_to_false.
  eval_row Hr. reflexivity.
Qed.

Ltac cell_cases :=
  repeat first
    [ progress cbn
    | case_bool_decide
    | match goal with
      | |- context [if ?b then _ else _] => destruct b
      end ];
  try done; eauto.

Lemma between_cell_total k incl na cv lo hi :
  cv = CNull ∨ (∃ z, cv = CNum z) → is_Some (between_cell k incl na cv lo hi).
Proof.
  unfold between_cell.
  intros [->|[z ->]]; destruct k, incl as [[] []], na; cell_cases.
Qed.

Lemma outside_cell_total k incl na cv lo hi :
  cv = CNull ∨ (∃ z, cv = CNum z) → is_Some (outside_cell k incl na cv lo hi).
Proof.
  unfold outside_cell, null_to_false.
  intros [->|[z ->]]; destruct k, incl as [[] []], na; cell_cases.
Qed.

Lemma between_cell_null k incl lo hi :
  between_cell k incl true CNull lo hi = Some (CBool true).
Proof. unfold between_cell. destruct k, incl as [[] []]; cell_cases. Qed.

Lemma outside_cell_null k incl lo hi :
  outside_cell k incl true CNull lo hi = Some (CBool true).
Proof. unfold outside_cell, null_to_false. destruct k, incl as [[] []]; cell_cases. Qed.

(** Runs a row operation on a row whose target cell is a known
    constructor. *)
Ltac run_row Hr :=
  unfold good_of, then_rows, assign, remove;
  unfold operand_is_null, operand_null_pass, _get_compare_expr_nw, str_contains,
         col, lit, is_null, is_in, cmp, and_, or_, not_, when_then_otherwise;
  repeat first
    [ rewrite Hr
    | rewrite lookup_insert_eq
    | rewrite lookup_insert_ne by done
    | rewrite lookup_delete_ne by done
    | rewrite bool_decide_eq_true_2 by eauto
    | rewrite bool_decide_eq_false_2 by done
    | progress cbn ].


Lemma isin_rows self :
  ∃ G, isin self = map_rows G (x self) ∧
       ∀ k r, good_of G k r = is_in (col (column self)) (set self) k r.
Proof.
  unfold isin. to_rows. unfold with_columns. eexists; split; [reflexivity|].
  intros k r. unfold good_of, assign. cbn.
  destruct (is_in _ _ k r); cbn; [|done]. by rewrite lookup_insert_eq.
Qed.

Lemma notin_rows self :
  ∃ G, notin self = map_rows G (x self) ∧
       ∀ k r, good_of G k r = negate <$> is_in (col (column self)) (set self) k r.
Proof.
  unfold notin. to_rows. eexists; split; [reflexivity|].
  intros k r. unfold good_of, then_rows, assign. cbn.
  unfold is_in at 1 2, col at 1 2, not_, col.
  destruct (r !! column self) as [[]|]; cbn; try done;
    rewrite ?lookup_insert_eq; cbn; rewrite ?lookup_insert_eq; try done.
  destruct k; cbn; rewrite ?lookup_insert_eq; cbn; rewrite ?lookup_insert_eq; done.
Qed.

Lemma mapM_fmap_out {A B C} (f : A → option B) (g : B → C) (l : list A) :
  mapM (fun a => g <$> f a) l = fmap g <$> mapM f l.
Proof.
  induction l as [|a l IH]; [done|].
  cbn. destruct (f a); cbn; [|done]. rewrite IH. by destruct (mapM f l).
Qed.

Lemma mapM_ext_in {A B} (f g : A → option B) (l : list A) :
  (∀ a, a ∈ l → f a = g a) → mapM f l = mapM g l.
Proof.
  induction l as [|a l IH]; [done|]. intros H.
  cbn. rewrite (H a) by set_solver. rewrite IH; [done|].
  intros a' Ha'. apply H. set_solver.
Qed.

(** The pattern shared by the scalar comparisons: three helper columns
    computed from the incoming row, their disjunction written to
    [pb_is_good_], the helpers dropped. *)
Lemma three_helpers_eval (e1 e2 e3 : expr) (k : backend) (r : gmap string cell) :
  good_of
    (then_rows
       (then_rows
          (assign [ ("pb_is_good_1", e1); ("pb_is_good_2", e2); ("pb_is_good_3", e3) ])
          (assign [ ("pb_is_good_",
                     (col "pb_is_good_1" |: col "pb_is_good_2" |: col "pb_is_good_3")%E) ]))
       (remove ["pb_is_good_1"; "pb_is_good_2"; "pb_is_good_3"])) k r
  = (v1 ← e1 k r; v2 ← e2 k r; v3 ← e3 k r; q ← or_cell v1 v2; or_cell q v3).
Proof.
  unfold good_of, then_rows, assign, remove, or_, col. cbn [mapM fst snd].
  destruct (e1 k r) as [v1|]; [|done]. destruct (e2 k r) as [v2|]; [|done].
  destruct (e3 k r) as [v3|]; [|done].
  repeat first
    [ rewrite lookup_insert_eq
    | rewrite lookup_insert_ne by done
    | rewrite lookup_delete_ne by done
    | rewrite bool_decide_eq_true_2 by eauto
    | progress cbn [mbind option_bind mret option_ret foldl foldr fst snd mapM
                    forallb andb]
    | match goal with
      | |- context [@mbind option _ _ _ _ (or_cell ?a ?b)] =>
          destruct (or_cell a b); [|reflexivity]
      end ].
  reflexivity.
Qed.








Lemma mapM_Some_length {A B} (f : A → option B) (l : list A) (l' : list B) :
  mapM f l = Some l' → length l' = length l.
Proof. intros H%mapM_Some_1. symmetry. by eapply Forall2_length. Qed.

(** From the rows to the table, for a numeric target column. *)
Lemma numeric_rows_to_table G f c (on_cell : backend → cell → option cell) :
  numeric_column c f = true →
  (∀ k r cv, r !! c = Some cv → cv = CNull ∨ (∃ z, cv = CNum z) →
             good_of G k r = on_cell k cv) →
  (∀ k cv, cv = CNull ∨ (∃ z, cv = CNum z) → is_Some (on_cell k cv)) →
  ∃ t g, map_rows G f = Some t ∧ is_good t = Some g ∧
         length g = length (rows f) ∧
         ∀ i r cv, rows f !! i = Some r → r !! c = Some cv →
                   g !! i = on_cell (kind f) cv.
Proof.
  intros Hnum HG Htotal.
  destruct (map_rows_good_at G f) as (t & g & Ht & Hg & Hrows).
  { intros r Hr. destruct (numeric_column_lookup _ _ _ Hnum Hr) as (cv & Hcv & Hshape).
    rewrite (HG _ _ _ Hcv Hshape). by apply Htotal. }
  exists t, g. split_and!; [done..| |].
  - pose proof (is_good_map_rows G f) as E. rewrite Ht in E. cbn in E.
    rewrite Hg in E. symmetry in E. by apply mapM_Some_length in E.
  - intros i r cv Hi Hcv. rewrite (Hrows _ _ Hi).
    apply HG; [done|].
    destruct (numeric_column_lookup c f r Hnum) as (cv' & Hcv' & Hshape).
    { by eapply list_elem_of_lookup_2. }
    by assert (cv' = cv) as <- by congruence.
Qed.




Lemma column_rows_eval (op : cmp_op) (c other : string) (na : bool)
    (k : backend) (r : gmap string cell) (cv ov : cell) :
  r !! c = Some cv → r !! other = Some ov →
  good_of
    (then_rows
       (then_rows
          (assign [ ("pb_is_good_1", (is_null (col c) &: lit (CBool na))%E);
                    ("pb_is_good_2", (is_null (col other) &: lit (CBool na))%E);
                    ("pb_is_good_3", cmp op (col c) (col other)) ])
          (assign [ ("pb_is_good_",
                     (col "pb_is_good_1" |: col "pb_is_good_2" |: col "pb_is_good_3")%E) ]))
       (remove ["pb_is_good_1"; "pb_is_good_2"; "pb_is_good_3"])) k r
  = compare_cells k op na cv ov.
Proof.
  intros Hr Ho. rewrite three_helpers_eval.
  unfold compare_cells, and_, is_null, cmp, col, lit. rewrite Hr, Ho. reflexivity.
Qed.

Ltac column_rows method :=
  let f := fresh "f" in let c := fresh "c" in let na := fresh "na" in
  intros [f c ? ? ? ? ? ? na]; cbn;
  intros other ->;
  unfold method; cbn [Interrogation.x Interrogation.column Interrogation.compare
                      Interrogation.na_pass operand_null_pass _get_compare_expr_nw];
  to_rows; eexists; split; [reflexivity|];
  intros k r cv ov Hr Ho; by apply column_rows_eval.

Lemma gt_column_rows self other :
  compare self = Column other →
  ∃ G, gt self = map_rows G (x self) ∧
       ∀ k r cv ov, r !! column self = Some cv → r !! other = Some ov →
                    good_of G k r = compare_cells k Gt (na_pass self) cv ov.
Proof. revert self other. column_rows gt. Qed.

Lemma lt_column_rows self other :
  compare self = Column other →
  ∃ G, lt self = map_rows G (x self) ∧
       ∀ k r cv ov, r !! column self = Some cv → r !! other = Some ov →
                    good_of G k r = compare_cells k Lt (na_pass self) cv ov.
Proof. revert self other. column_rows lt. Qed.

Lemma ge_column_rows self other :
  compare self = Column other →
  ∃ G, ge self = map_rows G (x self) ∧
       ∀ k r cv ov, r !! column self = Some cv → r !! other = Some ov →
                    good_of G k r = compare_cells k Ge (na_pass self) cv ov.
Proof. revert self other. column_rows ge. Qed.

Lemma le_column_rows self other :
  compare self = Column other →
  ∃ G, le self = map_rows G (x self) ∧
       ∀ k r cv ov, r !! column self = Some cv → r !! other = Some ov →
                    good_of G k r = compare_cells k Le (na_pass self) cv ov.
Proof. revert self other. column_rows le. Qed.

Lemma scalar_methods_column_rows (self : Interrogator) (other : string) :
  compare self = Column other →
  Forall (fun mo : (Interrogator → option frame) * cmp_op =>
            ∃ G, mo.1 self = map_rows G (x self) ∧
                 ∀ k r cv ov, r !! column self = Some cv → r !! other = Some ov →
                              good_of G k r = compare_cells k mo.2 (na_pass self) cv ov)
    scalar_methods.
Proof.
  intros Hv. unfold scalar_methods.
  repeat apply Forall_cons_2; [..|apply Forall_nil_2].
  - by apply gt_column_rows.
  - by apply lt_column_rows.
  - by apply ge_column_rows.
  - by apply le_column_rows.
Qed.

Lemma compare_cells_values k op na z w :
  compare_cells k op na (CNum z) (CNum w) = Some (CBool (cmp_num op z w)).
Proof. unfold compare_cells. destruct na; cbn; by destruct (cmp_num op z w). Qed.

Lemma compare_cells_missing k op cv ov :
  is_numeric cv = true → is_numeric ov = true →
  cv = CNull ∨ ov = CNull →
  compare_cells k op true cv ov = Some (CBool true).
Proof.
  unfold compare_cells.
  destruct cv, ov; try done; intros _ _ [?|?]; try done; by destruct k, op.
Qed.

Lemma compare_cells_total k op na cv ov :
  is_numeric cv = true → is_numeric ov = true →
  is_Some (compare_cells k op na cv ov).
Proof.
  unfold compare_cells.
  destruct cv, ov; try done; intros _ _; destruct k, op, na; cbn; eauto;
    match goal with |- context [if ?b then _ else _] => destruct b end; cbn; eauto.
Qed.

Lemma column_has_null_values_spec (f : frame) (c : string) :
  numeric_column c f = true →
  ∃ b, _column_has_null_values f c = Some b ∧
       (b = false → ∀ r, r ∈ rows f → r !! c ≠ Some CNull).
Proof.
  intros Hnum. unfold _column_has_null_values, to_list.
  assert (is_Some (mapM (fun r : gmap string cell => r !! c) (rows f))) as [cells E].
  { apply mapM_is_Some_2, Forall_forall. intros r Hr.
    destruct (numeric_column_lookup _ _ _ Hnum Hr) as (cv & Hcv & _). cbn. eauto. }
  rewrite E.
  - eexists. split; [reflexivity|]. cbn.
    intros Hb r Hr Hnull. apply negb_false_iff, Nat.eqb_eq in Hb.
    apply mapM_Some_1 in E. apply list_elem_of_lookup in Hr as [i Hi].
    destruct (Forall2_lookup_l _ _ _ _ _ E Hi) as (cv & Hcv & Hrc).
    assert (cv = CNull) as -> by congruence.
    apply list_elem_of_lookup_2 in Hcv.
    assert (CNull ∈ filter (fun c0 : cell => c0 = CNull) cells) as Hin
      by (by apply list_elem_of_filter).
    destruct (filter _ cells); [by apply elem_of_nil in Hin|done].
Qed.

Lemma ne_plain_rows (c : string) (v : Z) (k : backend) (r : gmap string cell) (cv : cell) :
  r !! c = Some cv →
  good_of (assign [ ("pb_is_good_", cmp Ne (col c) (lit (CNum v))) ]) k r
  = cmp_cell k Ne cv (CNum v).
Proof.
  intros Hr. unfold good_of, assign, cmp, col, lit. cbn. rewrite Hr. cbn.
  destruct (cmp_cell k Ne cv (CNum v)); cbn; [|done]. by rewrite lookup_insert_eq.
Qed.

Lemma ne_literal_nulls_rows (self : Interrogator) (v : Z) :
  is_helper_name (column self) = false →
  kind (x self) = Polars →
  ∃ G, ne_literal_nulls self v = map_rows G (x self) ∧
       ∀ r cv, r !! column self = Some cv → cv = CNull ∨ (∃ z, cv = CNum z) →
               good_of G Polars r = ne_cell (na_pass self) cv v.
Proof.
  destruct self as [f c cm s p l h incl na]; cbn.
  intros Hc Hk. apply helper_names_ne in Hc. destruct_and!.
  unfold ne_literal_nulls, is_pandas_dataframe;
    cbn [Interrogation.x Interrogation.column Interrogation.na_pass]. rewrite Hk.
  to_rows. eexists; split; [reflexivity|].
  intros r cv Hr [->|[z ->]]; destruct na; run_row Hr;
    try (destruct (Z.eqb z v); run_row Hr); reflexivity.
Qed.

Lemma between_cell_value k incl na z lo hi :
  between_cell k incl na (CNum z) lo hi = Some (CBool (in_range incl lo hi z)).
Proof.
  unfold between_cell, in_range.
  destruct incl as [[] []], na; cbn;
    repeat match goal with |- context [Z.leb ?a ?b] => destruct (Z.leb a b) end;
    repeat match goal with |- context [Z.ltb ?a ?b] => destruct (Z.ltb a b) end;
    reflexivity.
Qed.

Lemma outside_cell_value k incl na z lo hi :
  outside_cell k incl na (CNum z) lo hi = Some (CBool (negb (in_range incl lo hi z))).
Proof.
  unfold outside_cell, in_range, null_to_false.
  destruct incl as [[] []], na; cbn;
    rewrite ?(Z.leb_antisym lo z), ?(Z.leb_antisym z hi),
            ?(Z.ltb_antisym lo z), ?(Z.ltb_antisym z hi);
    repeat match goal with |- context [Z.leb ?a ?b] => destruct (Z.leb a b) end;
    repeat match goal with |- context [Z.ltb ?a ?b] => destruct (Z.ltb a b) end;
    reflexivity.
Qed.

Lemma outside_cell_missing k incl na lo hi :
  outside_cell k incl na CNull lo hi = Some (CBool na).
Proof. unfold outside_cell, null_to_false. by destruct k, incl as [[] []], na. Qed.

Lemma int_column_numeric c f :
  int_column c f = true → numeric_column c f = true.
Proof.
  unfold int_column, numeric_column. intros [_ H]%andb_true_iff.
  rewrite forallb_forall in *. intros r Hr. specialize (H r Hr).
  by destruct (r !! c) as [[]|].
Qed.

Lemma has_column_lookup c f r :
  has_column c f = true → r ∈ rows f → is_Some (r !! c).
Proof.
  unfold has_column. rewrite forallb_forall. intros H Hr.
  apply list_elem_of_In in Hr. specialize (H r Hr). by apply bool_decide_eq_true in H.
Qed.

Lemma mapM_None_at {A B} (f : A → option B) (l : list A) (a : A) :
  a ∈ l → f a = None → mapM f l = None.
Proof.
  intros Ha Hf. destruct (mapM f l) as [l'|] eqn:E; [|done].
  apply mapM_Some_1 in E. apply list_elem_of_lookup in Ha as [i Hi].
  destruct (Forall2_lookup_l _ _ _ _ _ E Hi) as (b & _ & Hb). congruence.
Qed.

Lemma has_column_false c f :
  has_column c f = false → ∃ r, r ∈ rows f ∧ r !! c = None.
Proof.
  unfold has_column. induction (rows f) as [|r l IH]; [done|]. cbn.
  case_bool_decide as Hr; cbn.
  - intros (r' & Hr' & Hnone)%IH. exists r'. split; [by right|done].
  - intros _. exists r. split; [by left|]. by apply eq_None_not_Some.
Qed.

End RowwiseFacts.

Section InterrogationProperties.
Import Frames Interrogation Rowwise Examples.

(** C1.  The scalar comparisons and [between] do not coerce a missing
    comparison result: on a Polars table, with a literal operand and
    [na_pass = False], the row whose value is missing gets a missing
    [pb_is_good_], neither [True] nor [False].  The same calls on a pandas
    table give a boolean in every row. *)
Theorem comparisons_leave_null_on_polars :
  (gt (literal_check (null_row_table Polars) "x" 5 false) ≫= is_good
     = Some [CBool false; CNull]) ∧
  (lt (literal_check (null_row_table Polars) "x" 5 false) ≫= is_good
     = Some [CBool false; CNull]) ∧
  (ge (literal_check (null_row_table Polars) "x" 5 false) ≫= is_good
     = Some [CBool true; CNull]) ∧
  (le (literal_check (null_row_table Polars) "x" 5 false) ≫= is_good
     = Some [CBool true; CNull]) ∧
  (between (range_check (null_row_table Polars) "x" 2 8 (true, true) false) ≫= is_good
     = Some [CBool true; CNull]) ∧
  (gt (column_check (ab_table Polars) "a" "b" false) ≫= is_good
     = Some [CBool false; CNull; CNull; CNull]) ∧
  (gt (literal_check (null_row_table Pandas) "x" 5 false) ≫= is_good
     = Some [CBool false; CBool false]).
Proof. repeat split; vm_compute; reflexivity. Qed.

(** C2.  [ne] with a column operand when both columns hold missing values.
    The vectors [a = [1, null, 3, null]], [b = [1, 2, null, null]] give
    [[False, False, False, False]] under [na_pass = False] and
    [[False, True, True, True]] under [na_pass = True] on both engines.  On
    a Polars table with [na_pass = True], however, a row with two distinct
    values present is not good: [a = [1, null]], [b = [2, null]] gives
    [[False, True]], where pandas gives [[True, True]]. *)
Theorem ne_both_null_polars_ignores_values :
  (∀ k, ne (column_check (ab_table k) "a" "b" false) ≫= is_good
        = Some [CBool false; CBool false; CBool false; CBool false]) ∧
  (∀ k, ne (column_check (ab_table k) "a" "b" true) ≫= is_good
        = Some [CBool false; CBool true; CBool true; CBool true]) ∧
  (ne (column_check (distinct_pair_table Polars) "a" "b" true) ≫= is_good
     = Some [CBool false; CBool true]) ∧
  (ne (column_check (distinct_pair_table Pandas) "a" "b" true) ≫= is_good
     = Some [CBool true; CBool true]) ∧
  (ne (column_check (distinct_pair_table Polars) "a" "b" false) ≫= is_good
     = Some [CBool true; CBool false]).
Proof. repeat split; try intros []; vm_compute; reflexivity. Qed.

(** C3.  On a local table whose target column is numeric, with literal
    bounds and [na_pass = True], [between] and [outside] both return a
    table, and a row whose target value is missing is good in both: [outside]
    is not the pointwise negation of [between]. *)
Theorem between_outside_both_good_on_null (self : Interrogator) (lo hi : Z)
    (i : nat) (r : gmap string cell) :
  low self = Literal lo → high self = Literal hi →
  na_pass self = true →
  is_helper_name (column self) = false →
  numeric_column (column self) (x self) = true →
  rows (x self) !! i = Some r →
  r !! column self = Some CNull →
  ∃ t1 g1 t2 g2,
    between self = Some t1 ∧ is_good t1 = Some g1 ∧ g1 !! i = Some (CBool true) ∧
    outside self = Some t2 ∧ is_good t2 = Some g2 ∧ g2 !! i = Some (CBool true).
Proof.
  intros Hlo Hhi Hna Hc Hnum Hi Hr.
  destruct (between_rows self lo hi Hlo Hhi Hc) as (G1 & E1 & R1).
  destruct (outside_rows self lo hi Hlo Hhi Hc) as (G2 & E2 & R2).
  destruct (map_rows_good_at G1 (x self)) as (t1 & g1 & T1 & S1 & L1).
  { intros r' Hr'. destruct (numeric_column_lookup _ _ _ Hnum Hr') as (cv & Hcv & Hshape).
    rewrite (R1 _ _ _ Hcv). by apply between_cell_total. }
  destruct (map_rows_good_at G2 (x self)) as (t2 & g2 & T2 & S2 & L2).
  { intros r' Hr'. destruct (numeric_column_lookup _ _ _ Hnum Hr') as (cv & Hcv & Hshape).
    rewrite (R2 _ _ _ Hcv). by apply outside_cell_total. }
  exists t1, g1, t2, g2. rewrite E1, E2.
  split_and!; try done.
  - rewrite (L1 _ _ Hi), (R1 _ _ _ Hr), Hna. apply between_cell_null.
  - rewrite (L2 _ _ Hi), (R2 _ _ _ Hr), Hna. apply outside_cell_null.
Qed.

Lemma between_outside_both_good_on_null_witness :
  ∃ t1 g1 t2 g2,
    between (range_check (null_row_table Polars) "x" 2 8 (true, true) true) = Some t1 ∧
    is_good t1 = Some g1 ∧ g1 !! 1%nat = Some (CBool true) ∧
    outside (range_check (null_row_table Polars) "x" 2 8 (true, true) true) = Some t2 ∧
    is_good t2 = Some g2 ∧ g2 !! 1%nat = Some (CBool true).
Proof.
  apply (between_outside_both_good_on_null
           (range_check (null_row_table Polars) "x" 2 8 (true, true) true)
           2 8 1 {[ "x" := CNull ]});
    vm_compute; reflexivity.
Defined.




(** C9.  On a local table, the [pb_is_good_] column of [notin] is the
    elementwise negation of the one of [isin] (a missing cell stays
    missing), and [notin] returns a table exactly when [isin] does; neither
    result depends on [na_pass]; and a row whose value is missing is not
    given the value of [na_pass]: with [na_pass = True] it gets [False] from
    [isin] on pandas and a missing cell on Polars. *)
Theorem notin_negates_isin (self : Interrogator) (na' : bool) :
  (notin self ≫= is_good = fmap (M:=list) negate <$> (isin self ≫= is_good)) ∧
  (isin (mkInterrogator (x self) (column self) (compare self) (set self) (pattern self)
           (low self) (high self) (inclusive self) na') = isin self) ∧
  (notin (mkInterrogator (x self) (column self) (compare self) (set self) (pattern self)
            (low self) (high self) (inclusive self) na') = notin self) ∧
  (isin (set_check (null_row_table Pandas) "x" [5] true) ≫= is_good
     = Some [CBool true; CBool false]) ∧
  (isin (set_check (null_row_table Polars) "x" [5] true) ≫= is_good
     = Some [CBool true; CNull]) ∧
  (notin (set_check (null_row_table Polars) "x" [5] true) ≫= is_good
     = Some [CBool false; CNull]).
Proof.
  split_and!; try (vm_compute; reflexivity); try reflexivity.
  destruct (isin_rows self) as (G & E & R).
  destruct (notin_rows self) as (G' & E' & R').
  rewrite E, E', !is_good_map_rows, <- mapM_fmap_out.
  apply mapM_ext_in. intros r _. by rewrite R, R'.
Qed.

End InterrogationProperties.

Section InterrogationCoverage.
Import Frames Interrogation Rowwise Examples.





(** X8.  [gt], [lt], [ge] and [le] with a [Column] operand, on a local
    table that has both columns as integer columns (in each some row holds a
    number, every row an integer of magnitude at most 2^53 or a missing
    value): the call returns a table; a row that holds two numbers gets
    their comparison, whatever [na_pass] and the engine; and with
    [na_pass = True] a row with a missing value on either side is good on
    both engines. *)
Theorem column_comparisons_row_by_row (self : Interrogator) (other : string) :
  compare self = Column other →
  int_column (column self) (x self) = true →
  int_column other (x self) = true →
  Forall (fun mo : (Interrogator → option frame) * cmp_op =>
            ∃ t g, mo.1 self = Some t ∧ is_good t = Some g ∧
                   ∀ i r, rows (x self) !! i = Some r →
                     (∀ z w, r !! column self = Some (CNum z) →
                             r !! other = Some (CNum w) →
                             g !! i = Some (CBool (cmp_num mo.2 z w))) ∧
                     (na_pass self = true →
                      r !! column self = Some CNull ∨ r !! other = Some CNull →
                      g !! i = Some (CBool true)))
    scalar_methods.
Proof.
  intros Hv Hnum1%int_column_numeric Hnum2%int_column_numeric.
  eapply Forall_impl; [by apply scalar_methods_column_rows|].
  intros [m op] (G & E & R). cbn [fst snd] in *.
  assert (∀ r, r ∈ rows (x self) →
               ∃ cv ov, r !! column self = Some cv ∧ r !! other = Some ov ∧
                        is_numeric cv = true ∧ is_numeric ov = true) as Hcells.
  { intros r Hr.
    destruct (numeric_column_lookup _ _ _ Hnum1 Hr) as (cv & Hcv & Hs1).
    destruct (numeric_column_lookup _ _ _ Hnum2 Hr) as (ov & Hov & Hs2).
    exists cv, ov. split_and!; [done..| |].
    - by destruct Hs1 as [->|[? ->]].
    - by destruct Hs2 as [->|[? ->]]. }
  destruct (map_rows_good_at G (x self)) as (t & g & Ht & Hg & Hrows).
  { intros r Hr. destruct (Hcells r Hr) as (cv & ov & Hcv & Hov & N1 & N2).
    rewrite (R _ _ _ _ Hcv Hov). by apply compare_cells_total. }
  exists t, g. rewrite E. split_and!; [done..|].
  intros i r Hi. rewrite (Hrows _ _ Hi).
  destruct (Hcells r) as (cv & ov & Hcv & Hov & N1 & N2);
    [by eapply list_elem_of_lookup_2|].
  rewrite (R _ _ _ _ Hcv Hov). split.
  - intros z w Hz Hw. assert (cv = CNum z) as -> by congruence.
    assert (ov = CNum w) as -> by congruence. apply compare_cells_values.
  - intros -> Hnull. apply compare_cells_missing; [done..|].
    destruct Hnull; [left|right]; congruence.
Qed.

Lemma column_comparisons_row_by_row_witness :
  Forall (fun mo : (Interrogator → option frame) * cmp_op =>
            ∃ t g, mo.1 (column_check (ab_table Polars) "a" "b" true) = Some t ∧
                   is_good t = Some g ∧
                   ∀ i r, rows (ab_table Polars) !! i = Some r →
                     (∀ z w, r !! "a" = Some (CNum z) → r !! "b" = Some (CNum w) →
                             g !! i = Some (CBool (cmp_num mo.2 z w))) ∧
                     (true = true →
                      r !! "a" = Some CNull ∨ r !! "b" = Some CNull →
                      g !! i = Some (CBool true)))
    scalar_methods.
Proof.
  apply (column_comparisons_row_by_row (column_check (ab_table Polars) "a" "b" true) "b");
    reflexivity.
Defined.

(** X9.  [between] and [outside] with literal bounds, on a local table
    that has the target column as an integer column (some row holds a
    number, every row an integer of magnitude at most 2^53 or a missing
    value), the bounds being such integers too and the column not bearing
    the name of one of the helper columns [pb_is_good_1] ... [pb_is_good_6]:
    both calls return a table; on a row that holds a number, [between] is
    the range test with each bound counted in when its [inclusive] flag is
    set, and [outside] is its negation, whatever [na_pass] and the engine;
    and [outside] gives a row whose value is missing the value of [na_pass],
    so that its [pb_is_good_] column holds booleans only on both engines. *)
Theorem outside_negates_between_on_values (self : Interrogator) (lo hi : Z) :
  low self = Literal lo → high self = Literal hi →
  exact lo = true → exact hi = true →
  is_helper_name (column self) = false →
  int_column (column self) (x self) = true →
  ∃ t1 g1 t2 g2,
    between self = Some t1 ∧ is_good t1 = Some g1 ∧
    outside self = Some t2 ∧ is_good t2 = Some g2 ∧
    ∀ i r, rows (x self) !! i = Some r →
      (∀ z, r !! column self = Some (CNum z) →
            g1 !! i = Some (CBool (in_range (inclusive self) lo hi z)) ∧
            g2 !! i = Some (CBool (negb (in_range (inclusive self) lo hi z)))) ∧
      (r !! column self = Some CNull → g2 !! i = Some (CBool (na_pass self))).
Proof.
  intros Hlo Hhi _ _ Hc Hnum%int_column_numeric.
  destruct (between_rows self lo hi Hlo Hhi Hc) as (G1 & E1 & R1).
  destruct (outside_rows self lo hi Hlo Hhi Hc) as (G2 & E2 & R2).
  destruct (numeric_rows_to_table G1 (x self) (column self)
              (fun k cv => between_cell k (inclusive self) (na_pass self) cv lo hi) Hnum)
    as (t1 & g1 & Ht1 & Hg1 & _ & Hrows1).
  { intros k r cv Hr _. by apply R1. }
  { intros k cv. apply between_cell_total. }
  destruct (numeric_rows_to_table G2 (x self) (column self)
              (fun k cv => outside_cell k (inclusive self) (na_pass self) cv lo hi) Hnum)
    as (t2 & g2 & Ht2 & Hg2 & _ & Hrows2).
  { intros k r cv Hr _. by apply R2. }
  { intros k cv. apply outside_cell_total. }
  exists t1, g1, t2, g2. rewrite E1, E2. split_and!; [done..|].
  intros i r Hi. split.
  - intros z Hz. rewrite (Hrows1 _ _ _ Hi Hz), (Hrows2 _ _ _ Hi Hz).
    by rewrite between_cell_value, outside_cell_value.
  - intros Hz. rewrite (Hrows2 _ _ _ Hi Hz). apply outside_cell_missing.
Qed.

Lemma outside_negates_between_on_values_witness :
  ∃ t1 g1 t2 g2,
    between (range_check (null_row_table Polars) "x" 2 5 (true, false) false) = Some t1 ∧
    is_good t1 = Some g1 ∧
    outside (range_check (null_row_table Polars) "x" 2 5 (true, false) false) = Some t2 ∧
    is_good t2 = Some g2 ∧
    ∀ i r, rows (null_row_table Polars) !! i = Some r →
      (∀ z, r !! "x" = Some (CNum z) →
            g1 !! i = Some (CBool (in_range (true, false) 2 5 z)) ∧
            g2 !! i = Some (CBool (negb (in_range (true, false) 2 5 z)))) ∧
      (r !! "x" = Some CNull → g2 !! i = Some (CBool false)).
Proof.
  apply (outside_negates_between_on_values
           (range_check (null_row_table Polars) "x" 2 5 (true, false) false) 2 5);
    reflexivity.
Defined.

(** X10.  [null] and [not_null] on a local table: when the table has at
    least one row and every row has the column, both calls return a table,
    [null] marks a row [True] exactly when its value is missing and
    [not_null] marks it with the negation, so no [pb_is_good_] cell is
    itself missing; when some row lacks the column, both calls fail. *)
Theorem null_and_not_null_are_complements (self : Interrogator) :
  (has_rows (x self) = true →
   has_column (column self) (x self) = true →
   ∃ t1 g1 t2 g2,
     null self = Some t1 ∧ is_good t1 = Some g1 ∧
     not_null self = Some t2 ∧ is_good t2 = Some g2 ∧
     ∀ i r cv, rows (x self) !! i = Some r → r !! column self = Some cv →
       g1 !! i = Some (CBool (bool_decide (cv = CNull))) ∧
       g2 !! i = Some (CBool (negb (bool_decide (cv = CNull))))) ∧
  (has_column (column self) (x self) = false →
   null self = None ∧ not_null self = None).
Proof.
  unfold null, not_null, with_columns. split.
  - intros _ Hcol.
    assert (∀ (e : expr) (on_cell : cell → cell),
              (∀ k r cv, r !! column self = Some cv → e k r = Some (on_cell cv)) →
              ∃ t g, map_rows (assign [("pb_is_good_", e)]) (x self) = Some t ∧
                     is_good t = Some g ∧
                     ∀ i r cv, rows (x self) !! i = Some r → r !! column self = Some cv →
                               g !! i = Some (on_cell cv)) as Hrun.
    { intros e on_cell He.
      assert (∀ k r cv, r !! column self = Some cv →
                        good_of (assign [("pb_is_good_", e)]) k r = Some (on_cell cv)) as HG.
      { intros k r cv Hr. unfold good_of, assign. cbn. rewrite (He _ _ _ Hr). cbn.
        by rewrite lookup_insert_eq. }
      destruct (map_rows_good_at (assign [("pb_is_good_", e)]) (x self))
        as (t & g & Ht & Hg & Hrows).
      { intros r Hr. destruct (has_column_lookup _ _ _ Hcol Hr) as [cv Hcv].
        by rewrite (HG _ _ _ Hcv). }
      exists t, g. split_and!; [done..|].
      intros i r cv Hi Hcv. by rewrite (Hrows _ _ Hi), (HG _ _ _ Hcv). }
    destruct (Hrun (is_null (col (column self))) (fun cv => CBool (bool_decide (cv = CNull))))
      as (t1 & g1 & Ht1 & Hg1 & H1).
    { intros k r cv Hr. unfold is_null, col. by rewrite Hr. }
    destruct (Hrun (not_ (is_null (col (column self))))
                (fun cv => CBool (negb (bool_decide (cv = CNull)))))
      as (t2 & g2 & Ht2 & Hg2 & H2).
    { intros k r cv Hr. unfold not_, is_null, col. by rewrite Hr. }
    exists t1, g1, t2, g2. split_and!; [done..|].
    intros i r cv Hi Hcv. by rewrite (H1 _ _ _ Hi Hcv), (H2 _ _ _ Hi Hcv).
  - intros (r & Hr & Hnone)%has_column_false.
    unfold map_rows.
    rewrite !(mapM_None_at _ (rows (x self)) r Hr); [done| |].
    + unfold assign. cbn. unfold not_, is_null, col. by rewrite Hnone.
    + unfold assign. cbn. unfold is_null, col. by rewrite Hnone.
Qed.

(** X11.  [ne] with a literal operand, on a local table that has the
    target column as an integer column (some row holds a number, every row
    an integer of magnitude at most 2^53 or a missing value), the operand
    being such an integer too and the column not bearing the name of one of
    the helper columns [pb_is_good_1] ... [pb_is_good_6]; on a Polars table,
    or on a table of either engine whose column has no missing value: the
    call returns a table; a row that holds a number is good exactly when the
    number differs from the operand, and a row whose value is missing gets
    the value of [na_pass]. *)
Theorem ne_literal_row_by_row (self : Interrogator) (v : Z) :
  compare self = Literal v →
  exact v = true →
  is_helper_name (column self) = false →
  int_column (column self) (x self) = true →
  kind (x self) = Polars ∨ _column_has_null_values (x self) (column self) = Some false →
  ∃ t g, ne self = Some t ∧ is_good t = Some g ∧
         ∀ i r, rows (x self) !! i = Some r →
           (∀ z, r !! column self = Some (CNum z) →
                 g !! i = Some (CBool (negb (Z.eqb z v)))) ∧
           (r !! column self = Some CNull → g !! i = Some (CBool (na_pass self))).
Proof.
  intros Hv _ Hc Hnum%int_column_numeric Hcase.
  destruct (column_has_null_values_spec _ _ Hnum) as (b & Hb & Hnone).
  unfold ne. rewrite Hb, Hv. cbn [mbind option_bind].
  destruct b; cbn [negb andb].
  - destruct Hcase as [Hk|?]; [|congruence].
    destruct (ne_literal_nulls_rows self v Hc Hk) as (G & E & R). rewrite E.
    destruct (map_rows_good_at G (x self)) as (t & g & Ht & Hg & Hrows).
    { intros r Hr. destruct (numeric_column_lookup _ _ _ Hnum Hr) as (cv & Hcv & Hs).
      rewrite Hk, (R _ _ Hcv Hs). destruct Hs as [->|[z ->]]; cbn; eauto. }
    exists t, g. split_and!; [done..|].
    intros i r Hi. rewrite (Hrows _ _ Hi), Hk. split.
    + intros z Hz. rewrite (R _ _ Hz); [done|eauto].
    + intros Hz. rewrite (R _ _ Hz); [done|eauto].
  - unfold with_columns.
    destruct (map_rows_good_at
                (assign [ ("pb_is_good_", cmp Ne (col (column self)) (lit (CNum v))) ])
                (x self)) as (t & g & Ht & Hg & Hrows).
    { intros r Hr. destruct (numeric_column_lookup _ _ _ Hnum Hr) as (cv & Hcv & Hs).
      rewrite (ne_plain_rows _ _ _ _ _ Hcv). destruct Hs as [->|[z ->]]; cbn; eauto. }
    exists t, g. split_and!; [done..|].
    intros i r Hi. rewrite (Hrows _ _ Hi). split.
    + intros z Hz. by rewrite (ne_plain_rows _ _ _ _ _ Hz).
    + intros Hz. exfalso. eapply Hnone; [done| |done]. by eapply list_elem_of_lookup_2.
Qed.


Lemma ne_literal_row_by_row_witness :
  ∃ t g, ne (literal_check (null_row_table Polars) "x" 5 true) = Some t ∧
         is_good t = Some g ∧
         ∀ i r, rows (null_row_table Polars) !! i = Some r →
           (∀ z, r !! "x" = Some (CNum z) → g !! i = Some (CBool (negb (Z.eqb z 5)))) ∧
           (r !! "x" = Some CNull → g !! i = Some (CBool true)).
Proof.
  apply (ne_literal_row_by_row (literal_check (null_row_table Polars) "x" 5 true) 5);
    [reflexivity..|left; reflexivity].
Defined.

End InterrogationCoverage.

Section DataKept.
Import Frames Interrogation Rowwise.

Lemma same_data_refl f : same_data f f.
Proof. split; [done|]. by apply Forall_Forall2_diag, Forall_true. Qed.

Lemma Forall2_chain {A B C} (P : A → B → Prop) (Q : B → C → Prop) (R : A → C → Prop)
    (l1 : list A) (l2 : list B) (l3 : list C) :
  (∀ a b c, P a b → Q b c → R a c) →
  Forall2 P l1 l2 → Forall2 Q l2 l3 → Forall2 R l1 l3.
Proof.
  intros HR H12. revert l3. induction H12 as [|a b l1 l2 Hab _ IH]; intros l3 H23.
  - by apply Forall2_nil_inv_l in H23 as ->.
  - apply Forall2_cons_inv_l in H23 as (c & l3' & Hbc & H23 & ->).
    constructor; [by eapply HR|by apply IH].
Qed.

Lemma same_data_trans f t u : same_data f t → same_data t u → same_data f u.
Proof.
  intros [K1 R1] [K2 R2]. split; [congruence|].
  eapply Forall2_chain; [|done..].
  intros r r' r'' H1 H2 c Hc. cbn in *. by rewrite H2, H1.
Qed.

Lemma foldl_insert_lookup_ne (vals : list (string * cell)) (r : gmap string cell) c :
  c ∉ vals.*1 →
  foldl (fun r' (kv : string * cell) => <[kv.1 := kv.2]> r') r vals !! c = r !! c.
Proof.
  revert r. induction vals as [|[n v] vals IH]; [done|]. intros r Hc.
  cbn in *. apply not_elem_of_cons in Hc as [Hn Hc].
  rewrite IH by done. by rewrite lookup_insert_ne.
Qed.

Lemma foldl_insert_lookup_some (vals : list (string * cell)) (r : gmap string cell) c :
  is_Some (r !! c) ∨ c ∈ vals.*1 →
  is_Some (foldl (fun r' (kv : string * cell) => <[kv.1 := kv.2]> r') r vals !! c).
Proof.
  revert r. induction vals as [|[n v] vals IH]; intros r.
  - intros [?|?%elem_of_nil]; done.
  - cbn. intros H. apply IH.
    destruct (decide (n = c)) as [->|Hne].
    + left. by rewrite lookup_insert_eq.
    + rewrite lookup_insert_ne by done.
      destruct H as [?|[?|?]%elem_of_cons]; [by left|congruence|by right].
Qed.

Lemma assign_names named k r r' :
  assign named k r = Some r' →
  ∃ vals, vals.*1 = named.*1 ∧
          r' = foldl (fun r' (kv : string * cell) => <[kv.1 := kv.2]> r') r vals.
Proof.
  unfold assign. intros (vals & Hvals & [= <-])%bind_Some.
  exists vals. split; [|done].
  apply mapM_Some_1 in Hvals.
  induction Hvals as [|ne kv named vals H _ IH]; [done|].
  cbn. apply bind_Some in H as (c & _ & [= <-]). cbn. by rewrite IH.
Qed.

Lemma remove_lookup names k r r' c :
  remove names k r = Some r' → c ∉ names → r' !! c = r !! c.
Proof.
  unfold remove. destruct (forallb _ names); [|done]. intros [= <-] Hc.
  induction names as [|n names IH]; [done|].
  cbn. apply not_elem_of_cons in Hc as [Hn Hc].
  rewrite lookup_delete_ne by done. by apply IH.
Qed.

Lemma map_rows_Forall2 G f t :
  map_rows G f = Some t →
  kind t = kind f ∧
  Forall2 (fun r r' => G (kind f) r = Some r') (rows f) (rows t).
Proof.
  unfold map_rows. intros (rows' & H & [= <-])%bind_Some. cbn.
  split; [done|]. by apply mapM_Some_1.
Qed.

Lemma with_columns_same named f t :
  forallb (fun ne : string * expr => is_result_name ne.1) named = true →
  with_columns named f = Some t → same_data f t.
Proof.
  intros Hn [K R]%map_rows_Forall2. split; [done|].
  eapply Forall2_impl; [done|]. cbn.
  intros r r' (vals & Hv & ->)%assign_names c Hc.
  apply foldl_insert_lookup_ne. rewrite Hv. intros Hin.
  apply list_elem_of_fmap in Hin as (ne & -> & Hin).
  rewrite forallb_forall in Hn. apply list_elem_of_In in Hin.
  specialize (Hn _ Hin). congruence.
Qed.

Lemma drop_same names f t :
  forallb is_result_name names = true →
  drop names f = Some t → same_data f t.
Proof.
  intros Hn [K R]%map_rows_Forall2. split; [done|].
  eapply Forall2_impl; [done|]. cbn.
  intros r r' Hr c Hc. eapply remove_lookup; [done|].
  intros Hin. rewrite forallb_forall in Hn. apply list_elem_of_In in Hin.
  specialize (Hn _ Hin). congruence.
Qed.

Lemma with_columns_good named f t :
  with_columns named f = Some t →
  bool_decide ("pb_is_good_" ∈ named.*1) = true →
  has_good t.
Proof.
  intros [K R]%map_rows_Forall2 Hin%bool_decide_eq_true. unfold has_good.
  eapply Forall2_Forall_r; [exact R|].
  apply Forall_forall. intros r _ r' (vals & Hv & ->)%assign_names.
  apply foldl_insert_lookup_some. right. by rewrite Hv.
Qed.

Lemma drop_keeps_good names f t :
  has_good f →
  drop names f = Some t →
  bool_decide ("pb_is_good_" ∉ names) = true →
  has_good t.
Proof.
  unfold has_good. intros Hf [K R]%map_rows_Forall2 Hn%bool_decide_eq_true.
  eapply Forall2_Forall_r; [exact R|].
  eapply Forall_impl; [exact Hf|].
  intros r Hg r' Hr. cbn in *. by rewrite (remove_lookup _ _ _ _ _ Hr Hn).
Qed.

Ltac invert_steps :=
  repeat match goal with
  | H : Some _ = Some _ |- _ => injection H as H; try subst
  | H : None = Some _ |- _ => discriminate H
  | H : (_ ≫= _) = Some _ |- _ => apply bind_Some in H as (? & ? & H)
  | H : when_ ?b _ _ = Some _ |- _ => destruct b; cbn [when_] in H
  | H : (if ?b then _ else _) = Some _ |- _ => destruct b
  | H : match ?o with Column _ => _ | Literal _ => _ end = Some _ |- _ => destruct o
  end.

Ltac solve_same :=
  first
    [ apply same_data_refl
    | eapply same_data_trans;
      [| first [ eapply with_columns_same; [|eassumption]; reflexivity
               | eapply drop_same; [|eassumption]; reflexivity ] ];
      solve_same ].

Ltac solve_good :=
  first
    [ eapply with_columns_good; [eassumption|]; reflexivity
    | eapply drop_keeps_good; [|eassumption|reflexivity]; solve_good ].

(** X12.  An interrogation of a local table that returns a table keeps
    the rows in their order and on the same engine, leaves every column other
    than [pb_is_good_] and the helper columns [pb_is_good_1] ...
    [pb_is_good_6] as it was, and gives every row a [pb_is_good_] cell.  This
    holds for [gt], [lt], [ge], [le], [ne], [between], [outside], [isin],
    [notin], [null], [not_null] and [regex]. *)
Theorem interrogations_keep_the_data :
  Forall (fun method : Interrogator → option frame =>
            ∀ self t, method self = Some t → keeps_data (x self) t)
    local_methods ∧
  ∀ re_match on_missing self t,
    regex re_match on_missing self = Some t → keeps_data (x self) t.
Proof.
  split; [unfold local_methods; repeat apply Forall_cons_2; [..|apply Forall_nil_2]|];
    intros; [..|rename H into Hrun];
    match goal with H : _ = Some _ |- _ =>
      unfold gt, lt, ge, le, ne, ne_case1, ne_case2, ne_case3, ne_literal_nulls,
             between, outside, isin, notin, null, not_null, regex in H
    end;
    invert_steps; (split; [solve_same|solve_good]).
Qed.

End DataKept.

Section ComparatorFacts.
Import Comparison Expected.

Lemma _ensure_list_spec (v : pyval) (n : nat) (name : string) :
  is_not_None v = true →
  _ensure_list v (Some n) name
  = if fits n v then Ok (broadcast n v) else Raise (length_mismatch name).
Proof.
  destruct v as [|z|l]; [done|done|]. intros _. cbn.
  case_bool_decide as H; destruct (Nat.eqb_spec (length l) n); done.
Qed.

Lemma operand_spec (v : pyval) (n : nat) (name : string) :
  (if is_not_None v then _ensure_list v (Some n) name else Ok v)
  = if fits n v then Ok (broadcast n v) else Raise (length_mismatch name).
Proof.
  destruct (is_not_None v) eqn:E; [by apply _ensure_list_spec|].
  by destruct v.
Qed.

(** C8.  Construction of a [Comparator] on a list [x]: a scalar operand is
    broadcast to a list of [len(x)] copies, a list operand of exactly
    [len(x)] elements is kept, and a list operand of another length makes
    the construction fail with the length-mismatch [ValueError] naming the
    first such operand among [compare], [low], [high]. *)
Theorem comparator_construction_broadcasts (xs : list pyval) (cmp lo hi : pyval) :
  __post_init__ (mkComparator (VList xs) cmp lo hi)
  = if negb (fits (length xs) cmp) then Raise (length_mismatch "compare")
    else if negb (fits (length xs) lo) then Raise (length_mismatch "low")
    else if negb (fits (length xs) hi) then Raise (length_mismatch "high")
    else Ok (mkComparator (VList xs)
               (broadcast (length xs) cmp) (broadcast (length xs) lo)
               (broadcast (length xs) hi)).
Proof.
  unfold __post_init__. cbn [x compare low high is_list len].
  rewrite !operand_spec.
  destruct (fits (length xs) cmp); [|done].
  destruct (fits (length xs) lo); [|done].
  by destruct (fits (length xs) hi).
Qed.

(** C4.  [Comparator.outside()] compares each element of [x] with the
    whole list [self.low]: on [x = [1, 3, 5]], [low = 2], [high = 4] it
    raises [TypeError] where [[True, False, True]] is expected, while
    [between(2, 4)] on the same object returns [[False, True, False]]; and
    it raises for every list [x] that starts with a number, whenever [low]
    is given. *)
Theorem comparator_outside_raises :
  (self ← __post_init__
            (mkComparator (VList [VNum 1; VNum 3; VNum 5]) VNone (VNum 2) (VNum 4));
   outside self)
  = Raise (TypeError "'<' not supported between instances of 'int' and 'list'") ∧
  (self ← __post_init__
            (mkComparator (VList [VNum 1; VNum 3; VNum 5]) VNone (VNum 2) (VNum 4));
   between self (VNum 2) (VNum 4))
  = Ok [false; true; false] ∧
  ∀ (x0 : Z) (xs : list pyval) (cmp lo hi : pyval) (self : Comparator),
    is_not_None lo = true →
    __post_init__ (mkComparator (VList (VNum x0 :: xs)) cmp lo hi) = Ok self →
    outside self
    = Raise (TypeError "'<' not supported between instances of 'int' and 'list'").
Proof.
  split_and!; [done|done|].
  intros x0 xs cmp lo hi self Hlo.
  unfold __post_init__. cbn [x compare low high is_list len]. rewrite !operand_spec.
  destruct (fits (length (VNum x0 :: xs)) cmp); [|done].
  destruct (fits (length (VNum x0 :: xs)) lo); [|done].
  destruct (fits (length (VNum x0 :: xs)) hi); [|done].
  intros [= <-]. unfold outside. cbn.
  destruct lo as [|z|l]; done.
Qed.

End ComparatorFacts.

Section ComparatorCoverage.
Import Comparison Expected.

Lemma res_mapM_Ok {A B} (f : A → B) (l : list A) :
  res_mapM (fun a => Ok (f a)) l = Ok (f <$> l).
Proof. induction l as [|a l IH]; [done|]. cbn. by rewrite IH. Qed.

Lemma res_mapM_ext {A B} (f g : A → res B) (l : list A) :
  (∀ a, a ∈ l → f a = g a) → res_mapM f l = res_mapM g l.
Proof.
  induction l as [|a l IH]; [done|]. intros H.
  cbn. rewrite (H a) by set_solver. rewrite IH; [done|].
  intros a' Ha'. apply H. set_solver.
Qed.

Lemma operand_aligned (v v' : pyval) (n : nat) (name : string) :
  (if is_not_None v then _ensure_list v (Some n) name else Ok v) = Ok v' →
  aligned n v' = true ∧ (is_not_None v' = is_not_None v) ∧
  (if is_not_None v' then _ensure_list v' (Some n) name else Ok v') = Ok v'.
Proof.
  rewrite operand_spec. destruct v as [|z|l]; cbn.
  - by intros [= <-].
  - intros [= <-]. cbn. rewrite length_replicate, Nat.eqb_refl.
    split_and!; [done..|]. by case_bool_decide.
  - destruct (Nat.eqb_spec (length l) n) as [E|E]; [|done].
    intros [= <-]. cbn. rewrite E, Nat.eqb_refl. split_and!; [done..|].
    by case_bool_decide.
Qed.

(** X1.  A [Comparator] whose construction succeeds holds a list in [x],
    and each of [compare], [low] and [high] is either not given or a list
    with as many elements as [x]; constructing again from the constructed
    object changes nothing. *)
Theorem constructed_comparator_is_aligned (c self : Comparator) :
  __post_init__ c = Ok self →
  is_list (x self) = true ∧
  aligned (len (x self)) (compare self) = true ∧
  aligned (len (x self)) (low self) = true ∧
  aligned (len (x self)) (high self) = true ∧
  __post_init__ self = Ok self.
Proof.
  unfold __post_init__ at 1.
  set (x' := if is_list (x c) then x c else VList [x c]).
  assert (is_list x' = true) as Hx by (subst x'; by destruct (x c)).
  destruct (if is_not_None (compare c) then _ else _) as [cm|] eqn:Ec; [|done].
  destruct (if is_not_None (low c) then _ else _) as [lo|] eqn:El; [|done].
  destruct (if is_not_None (high c) then _ else _) as [hi|] eqn:Eh; [|done].
  cbn. intros [= <-]. cbn.
  apply operand_aligned in Ec as (? & _ & Ec).
  apply operand_aligned in El as (? & _ & El).
  apply operand_aligned in Eh as (? & _ & Eh).
  split_and!; [done..|].
  unfold __post_init__. cbn. rewrite Hx, Ec, El, Eh. done.
Qed.

Lemma constructed_comparator_is_aligned_witness :
  is_list (x (mkComparator (VList [VNum 7]) (VList [VNum 3]) VNone (VList [VNum 9]))) = true ∧
  aligned 1 (VList [VNum 3]) = true ∧ aligned 1 VNone = true ∧
  aligned 1 (VList [VNum 9]) = true ∧
  __post_init__ (mkComparator (VList [VNum 7]) (VList [VNum 3]) VNone (VList [VNum 9]))
  = Ok (mkComparator (VList [VNum 7]) (VList [VNum 3]) VNone (VList [VNum 9])).
Proof.
  apply (constructed_comparator_is_aligned (mkComparator (VNum 7) (VNum 3) VNone (VNum 9))).
  reflexivity.
Defined.


Lemma post_init_ints (zs : list Z) (cmp : pyval) :
  __post_init__ (mkComparator (ints zs) cmp VNone VNone)
  = if fits (length zs) cmp
    then Ok (mkComparator (ints zs) (broadcast (length zs) cmp) VNone VNone)
    else Raise (length_mismatch "compare").
Proof.
  unfold __post_init__, ints. cbn [x compare low high is_list len is_not_None].
  rewrite operand_spec, length_fmap. by destruct (fits (length zs) cmp).
Qed.

Lemma res_mapM_zip_ints (f : pyval * pyval → res bool) (op : Z → Z → bool)
    (zs cs : list Z) :
  (∀ z c, f (VNum z, VNum c) = Ok (op z c)) →
  res_mapM f (zip (VNum <$> zs) (VNum <$> cs)) = Ok (zip_with op zs cs).
Proof.
  intros Hf. revert cs. induction zs as [|z zs IH]; intros [|c cs]; try done.
  cbn. by rewrite Hf, IH.
Qed.

Lemma zip_with_replicate_r {A B C} (f : A → B → C) (l : list A) (b : B) :
  zip_with f l (replicate (length l) b) = (fun a => f a b) <$> l.
Proof. induction l as [|a l IH]; [done|]. cbn. by rewrite IH. Qed.

(** X2.  On a list of integers [x], the comparisons [gt], [lt], [eq],
    [ne], [ge] and [le] of a constructed [Comparator] return one boolean per
    element of [x]: the element compared with the element of [compare] at
    the same place when [compare] is a list of integers of the same length,
    and with the scalar itself when [compare] is an integer. *)
Theorem comparator_compares_elementwise (zs : list Z) :
  (∀ cs : list Z, length cs = length zs →
     let made := __post_init__ (mkComparator (ints zs) (ints cs) VNone VNone) in
     (made ≫= gt) = Ok (zip_with Z.gtb zs cs) ∧
     (made ≫= lt) = Ok (zip_with Z.ltb zs cs) ∧
     (made ≫= eq) = Ok (zip_with Z.eqb zs cs) ∧
     (made ≫= ne) = Ok (zip_with (fun z c => negb (Z.eqb z c)) zs cs) ∧
     (made ≫= ge) = Ok (zip_with Z.geb zs cs) ∧
     (made ≫= le) = Ok (zip_with Z.leb zs cs)) ∧
  (∀ c : Z,
     let made := __post_init__ (mkComparator (ints zs) (VNum c) VNone VNone) in
     (made ≫= gt) = Ok ((fun z => Z.gtb z c) <$> zs) ∧
     (made ≫= lt) = Ok ((fun z => Z.ltb z c) <$> zs) ∧
     (made ≫= eq) = Ok ((fun z => Z.eqb z c) <$> zs) ∧
     (made ≫= ne) = Ok ((fun z => negb (Z.eqb z c)) <$> zs) ∧
     (made ≫= ge) = Ok ((fun z => Z.geb z c) <$> zs) ∧
     (made ≫= le) = Ok ((fun z => Z.leb z c) <$> zs)).
Proof.
  split.
  - intros cs Hlen made. subst made. rewrite post_init_ints.
    unfold ints. cbn [fits broadcast]. rewrite length_fmap, Hlen, Nat.eqb_refl.
    unfold gt, lt, eq, ne, ge, le, zip_; cbn [mbind res_bind x compare iter].
    split_and!; apply res_mapM_zip_ints; intros z c; cbn;
      rewrite ?Z.gtb_ltb, ?Z.geb_leb; done.
  - intros c made. subst made. rewrite post_init_ints. cbn [fits broadcast].
    unfold gt, lt, eq, ne, ge, le, zip_, ints; cbn [mbind res_bind x compare iter].
    rewrite <- (fmap_replicate VNum (length zs) c).
    split_and!.
    + rewrite (res_mapM_zip_ints _ Z.gtb), zip_with_replicate_r; [done|].
      intros z c'. cbn. by rewrite Z.gtb_ltb.
    + by rewrite (res_mapM_zip_ints _ Z.ltb), zip_with_replicate_r.
    + by rewrite (res_mapM_zip_ints _ Z.eqb), zip_with_replicate_r.
    + by rewrite (res_mapM_zip_ints _ (fun z c => negb (Z.eqb z c))), zip_with_replicate_r.
    + rewrite (res_mapM_zip_ints _ Z.geb), zip_with_replicate_r; [done|].
      intros z c'. cbn. by rewrite Z.geb_leb.
    + by rewrite (res_mapM_zip_ints _ Z.leb), zip_with_replicate_r.
Qed.

(** X3.  When [compare] is not given, each of [gt], [lt], [eq], [ne],
    [ge] and [le] raises [TypeError] on the constructed object, for every
    [x], an empty list included: [zip] refuses [None] before any element is
    compared. *)
Theorem comparator_without_compare_raises (c self : Comparator) :
  compare c = VNone →
  __post_init__ c = Ok self →
  Forall (fun method : Comparator → res (list bool) =>
            method self = Raise (TypeError "'NoneType' object is not iterable"))
    pairing_methods.
Proof.
  intros Hc Hmade.
  assert (compare self = VNone ∧ is_list (x self) = true) as [Hn Hx].
  { revert Hmade. unfold __post_init__. rewrite Hc. cbn [is_not_None mbind res_bind].
    destruct (if is_not_None (low c) then _ else _); [|done].
    destruct (if is_not_None (high c) then _ else _); [|done].
    cbn. intros [= <-]. cbn. split; [done|]. by destruct (x c). }
  unfold pairing_methods.
  repeat apply Forall_cons_2; [..|apply Forall_nil_2];
    unfold gt, lt, eq, ne, ge, le, zip_; rewrite Hn; by destruct (x self).
Qed.

Lemma comparator_without_compare_raises_witness :
  Forall (fun method : Comparator → res (list bool) =>
            method (mkComparator (VList []) VNone VNone VNone)
            = Raise (TypeError "'NoneType' object is not iterable"))
    pairing_methods.
Proof.
  apply (comparator_without_compare_raises (mkComparator (VList []) VNone VNone VNone));
    reflexivity.
Defined.

(** X4.  When [compare] is given and construction succeeds, [eq] and
    [ne] do not raise, whatever the values are (numbers, [None], lists):
    they return [len(x)] booleans, and [ne] is the elementwise negation of
    [eq]. *)
Theorem comparator_ne_negates_eq (c self : Comparator) :
  is_not_None (compare c) = true →
  __post_init__ c = Ok self →
  ∃ l, eq self = Ok l ∧ ne self = Ok (negb <$> l) ∧ length l = len (x self).
Proof.
  intros Hc Hmade.
  assert (∃ xs cs, x self = VList xs ∧ compare self = VList cs ∧ length cs = length xs)
    as (xs & cs & Hx & Hcs & Hlen).
  { revert Hmade. unfold __post_init__. rewrite Hc. cbn [mbind res_bind].
    set (x' := if is_list (x c) then x c else VList [x c]).
    assert (∃ xs, x' = VList xs) as [xs Hxs] by (subst x'; destruct (x c); eauto).
    rewrite Hxs. rewrite (_ensure_list_spec (compare c)) by done.
    destruct (fits (len (VList xs)) (compare c)) eqn:Hfit; [|done]. cbn [mbind res_bind].
    destruct (if is_not_None (low c) then _ else _); [|done].
    destruct (if is_not_None (high c) then _ else _); [|done].
    cbn. intros [= <-]. cbn. exists xs.
    destruct (compare c) as [|z|l]; [done| |]; cbn in *.
    - eexists. split_and!; [done..|]. by rewrite length_replicate.
    - exists l. split_and!; [done..|]. by apply Nat.eqb_eq. }
  unfold eq, ne, zip_. rewrite Hx, Hcs. cbn [iter mbind res_bind len].
  rewrite !res_mapM_Ok. eexists. split_and!; [done| |].
  - by rewrite <- list_fmap_compose.
  - rewrite length_fmap, length_zip. lia.
Qed.

Lemma comparator_ne_negates_eq_witness :
  ∃ l, eq (mkComparator (VList [VNone; VNum 2]) (VList [VNone; VNone]) VNone VNone) = Ok l ∧
       ne (mkComparator (VList [VNone; VNum 2]) (VList [VNone; VNone]) VNone VNone)
       = Ok (negb <$> l) ∧
       length l = len (VList [VNone; VNum 2]).
Proof.
  apply (comparator_ne_negates_eq
           (mkComparator (VList [VNone; VNum 2]) (VList [VNone; VNone]) VNone VNone));
    reflexivity.
Defined.

(** X5.  On a constructed [Comparator], [isin] and [notin] with a list
    of values, [isnull] and [notnull] do not raise and return one boolean per
    element of [x]: membership in the list by [==], and its negation; being
    [None], and its negation. *)
Theorem comparator_membership_tests (c self : Comparator) (values : list pyval) :
  __post_init__ c = Ok self →
  ∃ xs, x self = VList xs ∧
        isin self (VList values) = Ok ((fun i => existsb (py_eq i) values) <$> xs) ∧
        notin self (VList values)
        = Ok ((fun i => negb (existsb (py_eq i) values)) <$> xs) ∧
        isnull self = Ok ((fun i => negb (is_not_None i)) <$> xs) ∧
        notnull self = Ok (is_not_None <$> xs).
Proof.
  intros Hmade.
  assert (∃ xs, x self = VList xs) as [xs Hx].
  { revert Hmade. unfold __post_init__.
    destruct (if is_not_None (compare c) then _ else _); [|done].
    destruct (if is_not_None (low c) then _ else _); [|done].
    destruct (if is_not_None (high c) then _ else _); [|done].
    cbn. intros [= <-]. cbn. destruct (x c); eauto. }
  exists xs. unfold isin, notin, isnull, notnull. rewrite Hx.
  cbn [iter mbind res_bind py_in]. by rewrite !res_mapM_Ok.
Qed.

Lemma comparator_membership_tests_witness :
  ∃ xs, VList [VNum 4] = VList xs ∧
        isin (mkComparator (VList [VNum 4]) VNone VNone VNone) (VList [VNum 4; VNone])
        = Ok ((fun i => existsb (py_eq i) [VNum 4; VNone]) <$> xs) ∧
        notin (mkComparator (VList [VNum 4]) VNone VNone VNone) (VList [VNum 4; VNone])
        = Ok ((fun i => negb (existsb (py_eq i) [VNum 4; VNone])) <$> xs) ∧
        isnull (mkComparator (VList [VNum 4]) VNone VNone VNone)
        = Ok ((fun i => negb (is_not_None i)) <$> xs) ∧
        notnull (mkComparator (VList [VNum 4]) VNone VNone VNone)
        = Ok (is_not_None <$> xs).
Proof.
  apply (comparator_membership_tests (mkComparator (VNum 4) VNone VNone VNone)
           (mkComparator (VList [VNum 4]) VNone VNone VNone) [VNum 4; VNone]).
  reflexivity.
Defined.

Lemma res_mapM_ints (f : pyval → res bool) (g : Z → bool) (zs : list Z) :
  (∀ z, z ∈ zs → f (VNum z) = Ok (g z)) →
  res_mapM f (VNum <$> zs) = Ok (g <$> zs).
Proof.
  induction zs as [|z zs IH]; [done|]. intros H.
  cbn. rewrite H by set_solver. cbn. rewrite IH; [done|].
  intros z' Hz'. apply H. set_solver.
Qed.

(** X6.  [between(low, high)] on a list of integers compares with its
    two arguments, not with the [low] and [high] given at construction: an
    element [z] is good exactly when [low <= z <= high].  The chained
    comparison stops at its first half: a [high] that cannot be compared
    goes unnoticed as long as every element lies below [low], and raises
    [TypeError] as soon as one element does not. *)
Theorem comparator_between_uses_arguments (zs : list Z) (cmp lo' hi' : pyval)
    (lo hi : Z) :
  let self := mkComparator (ints zs) cmp lo' hi' in
  between self (VNum lo) (VNum hi) = Ok ((fun z => Z.leb lo z && Z.leb z hi) <$> zs) ∧
  (∀ bad, Forall (fun z => z < lo)%Z zs →
          between self (VNum lo) bad = Ok ((fun _ => false) <$> zs)) ∧
  (∀ z, z ∈ zs → (lo ≤ z)%Z →
        between self (VNum lo) VNone
        = Raise (TypeError "'<=' not supported between instances of 'int' and 'NoneType'")).
Proof.
  intros self. subst self. unfold between, ints. cbn [x iter mbind res_bind].
  split_and!.
  - apply res_mapM_ints. intros z _. cbn. by destruct (Z.leb lo z).
  - intros bad Hall. apply res_mapM_ints. intros z Hz.
    rewrite Forall_forall in Hall. specialize (Hall z Hz). cbn.
    destruct (Z.leb_spec lo z); [lia|done].
  - intros z Hz Hlo.
    set (f := fun i : pyval =>
                a ← py_le (VNum lo) i ; if (a : bool) then py_le i VNone else Ok false).
    assert (∀ z', f (VNum z')
                  = if Z.leb lo z'
                    then Raise (TypeError
                           "'<=' not supported between instances of 'int' and 'NoneType'")
                    else Ok false) as Hf.
    { intros z'. unfold f. cbn. by destruct (Z.leb lo z'). }
    induction zs as [|z' zs IH]; [by apply elem_of_nil in Hz|].
    rewrite fmap_cons. cbn [res_mapM]. rewrite Hf.
    destruct (Z.leb_spec lo z'); cbn [mbind res_bind]; [done|].
    apply elem_of_cons in Hz as [->|Hz]; [lia|].
    by rewrite IH.
Qed.

End ComparatorCoverage.

Section ValidationFacts.
Import Frames Validation Plans.

Lemma dict_of_snoc {V} (kvs : list (option Z * V)) (kv : option Z * V) :
  dict_of (kvs ++ [kv]) = <[kv.1 := kv.2]> (dict_of kvs).
Proof. unfold dict_of. by rewrite foldl_app. Qed.

Lemma dict_of_lookup_None {V} (kvs : list (option Z * V)) (k : option Z) :
  k ∉ kvs.*1 → dict_of kvs !! k = None.
Proof.
  induction kvs as [|[k' a'] kvs IH] using rev_ind; [done|].
  rewrite fmap_app, dict_of_snoc. cbn. intros Hk.
  apply not_elem_of_app in Hk as [Hk1 Hk2].
  rewrite lookup_insert_ne; [by apply IH|].
  intros <-. apply Hk2. by apply list_elem_of_singleton.
Qed.

Lemma dict_of_lookup {V} (kvs : list (option Z * V)) (k : option Z) (a : V) :
  NoDup kvs.*1 → (k, a) ∈ kvs → dict_of kvs !! k = Some a.
Proof.
  induction kvs as [|[k' a'] kvs IH] using rev_ind; [by intros _ ?%elem_of_nil|].
  rewrite fmap_app, dict_of_snoc. cbn.
  intros (Hnd & Hnot & _)%NoDup_app.
  intros [Hin|Hin%list_elem_of_singleton]%elem_of_app.
  - rewrite lookup_insert_ne; [by apply IH|].
    intros <-. apply (Hnot k'); [|by apply list_elem_of_singleton].
    apply list_elem_of_fmap. by exists (k', a).
  - injection Hin as -> ->. by rewrite lookup_insert_eq.
Qed.

Lemma dict_of_size {V} (kvs : list (option Z * V)) :
  NoDup kvs.*1 → size (dict_of kvs) = length kvs.
Proof.
  induction kvs as [|[k' a'] kvs IH] using rev_ind; [done|].
  rewrite fmap_app, dict_of_snoc, length_app. cbn.
  intros (Hnd & Hnot & _)%NoDup_app.
  rewrite map_size_insert_None; [rewrite IH by done; lia|].
  apply dict_of_lookup_None. intros Hin. apply (Hnot k'); [done|].
  by apply list_elem_of_singleton.
Qed.

(** Reading the same field of every step never raises. *)
Lemma entries_ok (attr : string) (get : _ValidationInfo → attr_value)
    (steps : list _ValidationInfo) :
  field attr = Some get →
  res_mapM (fun validation : _ValidationInfo =>
              a ← getattr validation attr; Ok (Validation.i validation, a)) steps
  = Ok ((fun v => (Validation.i v, get v)) <$> steps).
Proof.
  intros Hf. induction steps as [|v steps IH]; [done|].
  simpl. rewrite IH. unfold getattr. by rewrite Hf.
Qed.

Lemma indexed_lookup (steps : list _ValidationInfo) (s j : nat) (u : _ValidationInfo) :
  indices steps = (fun j : nat => Some (Z.of_nat j)) <$> seq s (length steps) →
  steps !! j = Some u → Validation.i u = Some (Z.of_nat (s + j)).
Proof.
  unfold indices. intros H Hj.
  assert ((Validation.i <$> steps) !! j = Some (Validation.i u)) as E
    by (by rewrite list_lookup_fmap, Hj).
  rewrite H, list_lookup_fmap, lookup_seq_lt in E by (by eapply lookup_lt_Some).
  cbn in E. by injection E as <-.
Qed.

Lemma well_indexed_lookup (steps : list _ValidationInfo) (j : nat) (v : _ValidationInfo) :
  well_indexed steps → steps !! j = Some v → Validation.i v = Some (Z.of_nat j + 1)%Z.
Proof.
  intros H Hj. rewrite (indexed_lookup _ 1 _ _ H Hj). f_equal. lia.
Qed.

Lemma well_indexed_NoDup (steps : list _ValidationInfo) :
  well_indexed steps → NoDup (indices steps).
Proof.
  unfold well_indexed. intros ->. apply NoDup_fmap_2; [|apply NoDup_seq].
  intros a b [= H]. lia.
Qed.

(** Registration keeps a plan well indexed. *)
Lemma _add_validation_well_indexed (self : Validate) (v : _ValidationInfo) :
  well_indexed (validation_info self) →
  well_indexed (validation_info (_add_validation self v)).
Proof.
  unfold well_indexed, indices, _add_validation. cbn. intros H.
  rewrite fmap_app, length_app, H. cbn.
  rewrite Nat.add_1_r, seq_S, fmap_app. cbn. repeat f_equal. lia.
Qed.

Lemma filter_none {A} (P : A → Prop) `{!∀ x, Decision (P x)} (l : list A) :
  (∀ x, x ∈ l → ¬ P x) → filter P l = [].
Proof.
  induction l as [|a l IH]; [done|]. intros Hall.
  rewrite filter_cons_False by (apply Hall; set_solver).
  apply IH. intros x Hx. apply Hall. set_solver.
Qed.

Lemma filter_index_none (steps : list _ValidationInfo) (l : list Z) :
  well_indexed steps →
  Forall (fun z => z < 1 ∨ Z.of_nat (length steps) < z)%Z l →
  filter (fun v : _ValidationInfo => index_in (Validation.i v) l = true) steps = [].
Proof.
  intros Hw Hl. apply filter_none. intros v Hv Hin.
  apply list_elem_of_lookup in Hv as [j Hj].
  pose proof (lookup_lt_Some _ _ _ Hj) as Hlt.
  rewrite (well_indexed_lookup _ _ _ Hw Hj) in Hin. cbn in Hin.
  apply bool_decide_eq_true in Hin.
  rewrite Forall_forall in Hl. specialize (Hl _ Hin). lia.
Qed.

Lemma filter_index_at (steps : list _ValidationInfo) (s k : nat) (v : _ValidationInfo) :
  indices steps = (fun j : nat => Some (Z.of_nat j)) <$> seq s (length steps) →
  steps !! k = Some v →
  filter (fun v : _ValidationInfo =>
            index_in (Validation.i v) [Z.of_nat (s + k)] = true) steps = [v].
Proof.
  revert s k. induction steps as [|w steps IH]; [done|].
  intros s k Hw Hk. unfold indices in *. cbn in Hw. injection Hw as Hi Hrest.
  destruct k as [|k].
  - injection Hk as ->. rewrite filter_cons_True.
    2:{ rewrite Hi. cbn. apply bool_decide_eq_true. rewrite Nat.add_0_r. set_solver. }
    f_equal. apply filter_none. intros u Hin Hu.
    apply list_elem_of_lookup in Hin as [j Hj].
    rewrite (indexed_lookup _ (S s) _ _ Hrest Hj) in Hu. cbn in Hu.
    apply bool_decide_eq_true, list_elem_of_singleton in Hu. lia.
  - cbn in Hk. rewrite filter_cons_False.
    2:{ rewrite Hi. cbn. intros Hu.
        apply bool_decide_eq_true, list_elem_of_singleton in Hu. lia. }
    replace (s + S k)%nat with (S s + k)%nat by lia. by apply IH.
Qed.

Lemma filter_index_one (steps : list _ValidationInfo) (k : nat) (v : _ValidationInfo) :
  well_indexed steps → steps !! k = Some v →
  filter (fun v : _ValidationInfo =>
            index_in (Validation.i v) [(Z.of_nat k + 1)%Z] = true) steps = [v].
Proof.
  intros Hw Hk. replace (Z.of_nat k + 1)%Z with (Z.of_nat (1 + k)) by lia.
  by apply filter_index_at.
Qed.

Lemma get_validation_dict_all (self : Validate) (attr : string)
    (get : _ValidationInfo → attr_value) :
  field attr = Some get →
  _get_validation_dict self AllSteps attr
  = Ok (dict_of ((fun v => (Validation.i v, get v)) <$> validation_info self)).
Proof. intros Hf. unfold _get_validation_dict. cbn. by rewrite (entries_ok _ get). Qed.

Lemma get_validation_dict_some (self : Validate) (q : step_query) (l : list Z)
    (attr : string) (get : _ValidationInfo → attr_value) :
  field attr = Some get → as_list q = Some l →
  _get_validation_dict self q attr
  = Ok (dict_of ((fun v => (Validation.i v, get v)) <$>
                   filter (fun v : _ValidationInfo => index_in (Validation.i v) l = true)
                     (validation_info self))).
Proof.
  intros Hf Hq. unfold _get_validation_dict. rewrite Hq. by rewrite (entries_ok _ get).
Qed.

Section LoopFacts.
Variable now : nat → Q.
Variable isoformat : Q → string.
Variable preprocess : _ValidationInfo → frame → res frame.
Variable get_test_units : frame → string → res Z.
Variable get_test_results : frame → _ValidationInfo → res frame.
Variable row_based : string → bool.

Local Abbreviation active_step :=
  (interrogate_active preprocess get_test_units get_test_results row_based).
Local Abbreviation loop :=
  (interrogate_loop now isoformat preprocess get_test_units get_test_results row_based).

Lemma interrogate_active_i (df : frame) (v : _ValidationInfo) :
  Validation.i (active_step df v).1 = Validation.i v.
Proof.
  unfold interrogate_active.
  repeat match goal with
         | |- context [match ?m with _ => _ end] => destruct m
         end; reflexivity.
Qed.

(** The loop keeps every step's index, however it ends. *)
Lemma loop_indices (df : frame) (t : nat) (steps : list _ValidationInfo) :
  indices (loop df t steps).1.1 = indices steps.
Proof.
  revert t. induction steps as [|v steps IH]; [done|]. intros t.
  cbn [interrogate_loop]. destruct (negb (active v)).
  - specialize (IH (S (S t))). destruct (loop df (S (S t)) steps) as [[rest' t'] e].
    cbn in *. by rewrite IH.
  - pose proof (interrogate_active_i df v) as Hi.
    destruct (active_step df v) as [v' [e|]]; cbn in *.
    + by rewrite Hi.
    + specialize (IH (S (S t))). destruct (loop df (S (S t)) steps) as [[rest' t'] e].
      cbn in *. by rewrite IH, Hi.
Qed.

(** When the loop runs to its end, an inactive step has received its two
    time fields and nothing else. *)
Lemma loop_inactive (df : frame) (t : nat) (steps steps' : list _ValidationInfo)
    (t' : nat) (k : nat) (v : _ValidationInfo) :
  loop df t steps = (steps', t', None) →
  steps !! k = Some v → active v = false →
  ∃ d p, steps' !! k = Some (set_times d p v).
Proof.
  revert t steps' k. induction steps as [|w steps IH]; [done|].
  intros t steps' k. cbn [interrogate_loop].
  destruct (active w) eqn:Hw; cbn [negb].
  - destruct (active_step df w) as [w' [e|]]; [done|].
    destruct (loop df (S (S t)) steps) as [[rest' t''] e] eqn:Hl.
    intros [= <- <- ->] Hk Hv. destruct k as [|k]; [cbn in Hk; congruence|].
    cbn in *. by eapply IH.
  - destruct (loop df (S (S t)) steps) as [[rest' t''] e] eqn:Hl.
    intros [= <- <- ->] Hk Hv. destruct k as [|k].
    + injection Hk as ->. cbn. eauto.
    + cbn in *. by eapply IH.
Qed.

(** When the loop runs to its end, every step takes two readings of the
    clock: the step at position [k] is stamped with the later of its two,
    and its duration is their difference. *)
Lemma loop_inactive_times (df : frame) (t : nat) (steps steps' : list _ValidationInfo)
    (t' : nat) (k : nat) (v : _ValidationInfo) :
  loop df t steps = (steps', t', None) →
  steps !! k = Some v → active v = false →
  steps' !! k
  = Some (set_times (now (S (t + 2 * k)) - now (t + 2 * k))
            (isoformat (now (S (t + 2 * k)))) v).
Proof.
  revert t steps' k. induction steps as [|w steps IH]; [done|].
  intros t steps' k. cbn [interrogate_loop].
  destruct (active w) eqn:Hw; cbn [negb].
  - destruct (active_step df w) as [w' [e|]]; [done|].
    destruct (loop df (S (S t)) steps) as [[rest' t''] e] eqn:Hl.
    intros [= <- <- ->] Hk Hv. destruct k as [|k]; [cbn in Hk; congruence|].
    specialize (IH _ _ _ Hl Hk Hv).
    replace (t + 2 * S k)%nat with (S (S t) + 2 * k)%nat by lia. exact IH.
  - destruct (loop df (S (S t)) steps) as [[rest' t''] e] eqn:Hl.
    intros [= <- <- ->] Hk Hv. destruct k as [|k].
    + injection Hk as ->.
      by replace (t + 2 * 0)%nat with t by lia.
    + specialize (IH _ _ _ Hl Hk Hv).
      replace (t + 2 * S k)%nat with (S (S t) + 2 * k)%nat by lia. exact IH.
Qed.

End LoopFacts.

Lemma count_bounds (b : bool) (results_list : list cell) :
  (0 ≤ count b results_list ≤ Z.of_nat (length results_list))%Z.
Proof.
  unfold count. pose proof (length_filter (fun c => equals_bool b c = true) results_list).
  lia.
Qed.

(** The failing count recovered from the failing fraction and the number
    of test units is the failing count itself. *)
Lemma abs_count_exceeded (c : Z) (results_list : list cell) :
  Qle_bool (inject_Z c)
    (_convert_abs_count_to_fraction (count false results_list)
       (Z.of_nat (length results_list)) * inject_Z (Z.of_nat (length results_list)))
  = Z.leb c (count false results_list).
Proof.
  pose proof (count_bounds false results_list) as Hb.
  unfold _convert_abs_count_to_fraction.
  destruct (Z.eqb_spec (Z.of_nat (length results_list)) 0) as [E|E].
  - rewrite E in *. assert (count false results_list = 0)%Z as -> by lia.
    unfold Qle_bool. cbn. by rewrite Z.mul_1_r.
  - unfold Qle_bool. cbn.
    rewrite Pos.mul_1_r, Z2Pos.id, !Z.mul_1_r by lia.
    destruct (Z.leb_spec c (count false results_list)).
    + apply Z.leb_le. nia.
    + apply Z.leb_gt. nia.
Qed.

Lemma threshold_result_exceeded (th : Thresholds) (results_list : list cell) (l : level) :
  _threshold_result th
    (_convert_abs_count_to_fraction (count false results_list)
       (Z.of_nat (length results_list)))
    (Z.of_nat (length results_list)) l
  = exceeded (_get_threshold_value th l) (count false results_list)
      (Z.of_nat (length results_list)).
Proof.
  unfold _threshold_result, exceeded.
  destruct (_get_threshold_value th l) as [[c|q]|]; [|done|done].
  apply abs_count_exceeded.
Qed.

End ValidationFacts.


Section ValidationProperties.
Import Frames Validation Plans.

(** C10.  On a plan whose steps carry the indices registration gave them,
    an accessor called with an integer or a list of integers none of which
    is the index of a registered step returns the empty dictionary, without
    raising; called with [None] it returns one entry per registered step,
    keyed by the step's 1-based index and holding the step's field. *)
Theorem accessors_by_step_index (self : Validate) (attr : string)
    (get : _ValidationInfo → attr_value) :
  well_indexed (validation_info self) →
  field attr = Some get →
  (∀ q l, as_list q = Some l →
          Forall (fun z => z < 1 ∨ Z.of_nat (length (validation_info self)) < z)%Z l →
          _get_validation_dict self q attr = Ok ∅) ∧
  ∃ d, _get_validation_dict self AllSteps attr = Ok d ∧
       size d = length (validation_info self) ∧
       ∀ j v, validation_info self !! j = Some v →
              d !! Some (Z.of_nat j + 1)%Z = Some (get v).
Proof.
  intros Hw Hf. split.
  - intros q l Hq Hl. rewrite (get_validation_dict_some _ _ l _ get Hf Hq).
    by rewrite filter_index_none.
  - eexists. split; [by apply get_validation_dict_all|].
    assert (NoDup ((fun v => (Validation.i v, get v)) <$> validation_info self).*1) as Hnd.
    { rewrite <- list_fmap_compose. by apply well_indexed_NoDup. }
    split.
    + by rewrite dict_of_size, length_fmap.
    + intros j v Hj. apply dict_of_lookup; [done|].
      apply list_elem_of_fmap. exists v. split.
      * by rewrite (well_indexed_lookup _ _ _ Hw Hj).
      * by eapply list_elem_of_lookup_2.
Qed.

Lemma accessors_by_step_index_witness :
  (∀ q l, as_list q = Some l →
          Forall (fun z => z < 1 ∨ Z.of_nat (length (validation_info plan_10_3)) < z)%Z l →
          n_ plan_10_3 q = Ok ∅) ∧
  ∃ d, n_ plan_10_3 AllSteps = Ok d ∧
       size d = length (validation_info plan_10_3) ∧
       ∀ j v, validation_info plan_10_3 !! j = Some v →
              d !! Some (Z.of_nat j + 1)%Z = Some (of_option AInt (n v)).
Proof.
  apply (accessors_by_step_index plan_10_3 "n" (fun v => of_option AInt (n v)));
    reflexivity.
Defined.

(** C5.  The threshold flags a step receives in [interrogate]: each of
    [warn], [stop] and [notify] is set to whether the step's failing count
    (for a level given as a count) or failing fraction (for a level given as
    a fraction) meets or exceeds the level's bound, and to [False] for a
    level that is not set.  With 100 test units of which 5 fail, a warn
    level of fraction 0.04 gives [warn = True] and a warn level of count 10
    gives [warn = False]. *)
Theorem threshold_flags_follow_bounds (results_tbl : frame) (results_list : list cell)
    (failing : option frame) (v : _ValidationInfo) :
  (warn (set_results results_tbl results_list failing v)
   = Some (exceeded (warn_at (thresholds v)) (count false results_list)
             (Z.of_nat (length results_list)))) ∧
  (stop (set_results results_tbl results_list failing v)
   = Some (exceeded (stop_at (thresholds v)) (count false results_list)
             (Z.of_nat (length results_list)))) ∧
  (notify (set_results results_tbl results_list failing v)
   = Some (exceeded (notify_at (thresholds v)) (count false results_list)
             (Z.of_nat (length results_list)))) ∧
  ((fun v => (n v, n_failed v, f_failed v, warn v, stop v)) <$>
     validation_info
       (interrogate ticking stamp keep count_rows run_gt row_based_all
          (plan_100_5 (Fraction (4 # 100)))).1
   = [(Some 100%Z, Some 5%Z, Some (5 # 100), Some true, Some false)]) ∧
  ((fun v => (n v, n_failed v, f_failed v, warn v, stop v)) <$>
     validation_info
       (interrogate ticking stamp keep count_rows run_gt row_based_all
          (plan_100_5 (AbsCount 10))).1
   = [(Some 100%Z, Some 5%Z, Some (5 # 100), Some false, Some false)]).
Proof.
  split_and!; try (vm_compute; reflexivity).
  all: unfold set_results; cbn [warn stop notify thresholds]; f_equal.
  - apply (threshold_result_exceeded _ _ Warn).
  - apply (threshold_result_exceeded _ _ Stop).
  - apply (threshold_result_exceeded _ _ Notify).
Qed.

Section InactiveSteps.
Variable now : nat → Q.
Variable isoformat : Q → string.
Variable preprocess : _ValidationInfo → frame → res frame.
Variable get_test_units : frame → string → res Z.
Variable get_test_results : frame → _ValidationInfo → res frame.
Variable row_based : string → bool.

(** C6.  When [interrogate] returns, a step whose [active] flag is
    [False] has received its two time fields: the step at position [k] is
    stamped with the second of the two clock readings taken for it, in ISO
    format, and its duration is the difference of the two, with nothing run
    between them.  Every other result field of it is still unset, and an
    accessor asked for any of those fields at the step's index returns
    [None] for it. *)
Theorem inactive_step_gets_only_times (self self' : Validate) (k : nat)
    (v : _ValidationInfo) :
  interrogate now isoformat preprocess get_test_units get_test_results row_based self
    = (self', None) →
  well_indexed (validation_info self) →
  validation_info self !! k = Some v →
  active v = false →
  other_results v = no_results →
  ∃ v', validation_info self' !! k = Some v' ∧
        time_processed v' = Some (isoformat (now (2 * k + 2))) ∧
        proc_duration_s v' = Some (now (2 * k + 2) - now (2 * k + 1))%Q ∧
        plan_of v' = plan_of v ∧
        other_results v' = no_results ∧
        Forall (fun attr =>
                  _get_validation_dict self' (OneStep (Z.of_nat k + 1)) attr
                  = Ok {[ Some (Z.of_nat k + 1)%Z := ANone ]}) result_fields.
Proof.
  unfold interrogate. intros Hrun Hw Hk Hinactive Hfresh.
  pose proof (loop_indices now isoformat preprocess get_test_units get_test_results
                row_based (data self) 1 (validation_info self)) as Hidx.
  destruct (interrogate_loop _ _ _ _ _ _ (data self) 1 (validation_info self))
    as [[steps' t'] e] eqn:Hloop.
  injection Hrun as <- ->. cbn in Hidx. cbn [validation_info].
  pose proof (loop_inactive_times _ _ _ _ _ _ _ _ _ _ _ _ _ Hloop Hk Hinactive) as Hk'.
  replace (S (1 + 2 * k))%nat with (2 * k + 2)%nat in Hk' by lia.
  replace (1 + 2 * k)%nat with (2 * k + 1)%nat in Hk' by lia.
  assert (length steps' = length (validation_info self)) as Hlen.
  { apply (f_equal length) in Hidx. unfold indices in Hidx.
    by rewrite !length_fmap in Hidx. }
  assert (well_indexed steps') as Hw'.
  { unfold well_indexed, indices in *. by rewrite Hidx, Hw, Hlen. }
  eexists. split_and!; [exact Hk'|done..|].
  pose proof (well_indexed_lookup _ _ _ Hw Hk) as Hi.
  unfold other_results, no_results in Hfresh.
  injection Hfresh as H1 H2 H3 H4 H5 H6 H7 H8 H9 H10 H11.
  repeat apply Forall_cons_2; [..|apply Forall_nil_2].
  all: erewrite get_validation_dict_some; [| reflexivity | reflexivity].
  all: cbn [validation_info]; rewrite (filter_index_one _ _ _ Hw' Hk').
  all: cbn; unfold dict_of; cbn; rewrite Hi, insert_empty; do 2 f_equal.
  all: by rewrite ?H1, ?H2, ?H3, ?H4, ?H5, ?H6, ?H7, ?H8, ?H9, ?H10, ?H11.
Qed.

End InactiveSteps.

Lemma inactive_step_gets_only_times_witness :
  ∃ v', validation_info
          (interrogate ticking stamp keep count_rows run_gt row_based_all plan_10_3).1
          !! 1%nat = Some v' ∧
        time_processed v' = Some (stamp (ticking (2 * 1 + 2))) ∧
        proc_duration_s v' = Some (ticking (2 * 1 + 2) - ticking (2 * 1 + 1))%Q ∧
        plan_of v' = plan_of (set_i 2 (new_ValidationInfo "col_vals_in_set" "x"
                                         (SetValues [1; 2]%Z) None None None
                                         no_thresholds false)) ∧
        other_results v' = no_results ∧
        Forall (fun attr =>
                  _get_validation_dict
                    (interrogate ticking stamp keep count_rows run_gt row_based_all
                       plan_10_3).1 (OneStep (Z.of_nat 1 + 1)) attr
                  = Ok {[ Some (Z.of_nat 1 + 1)%Z := ANone ]}) result_fields.
Proof.
  apply (inactive_step_gets_only_times ticking stamp keep count_rows run_gt
           row_based_all plan_10_3
           (interrogate ticking stamp keep count_rows run_gt row_based_all plan_10_3).1
           1
           (set_i 2 (new_ValidationInfo "col_vals_in_set" "x" (SetValues [1; 2]%Z)
                      None None None no_thresholds false)));
    vm_compute; reflexivity.
Defined.

End ValidationProperties.

Section PlanFacts.
Import Frames Validation Plans.

Lemma add_validation_untouched (self : Validate) (v : _ValidationInfo) :
  Forall untouched (validation_info self) → untouched v →
  Forall untouched (validation_info (_add_validation self v)).
Proof.
  intros Hall Hv. unfold _add_validation. cbn.
  apply Forall_app. split; [done|]. by apply Forall_singleton.
Qed.

(** X13.  A plan built through the public methods, a new [Validate]
    followed by any number of [col_vals_*] calls, carries the step indices
    1, 2, ... in the order of the calls, holds no result and no time in any
    step, and has neither a start nor an end time. *)
Theorem built_plans_are_well_indexed (self : Validate) :
  built self →
  well_indexed (validation_info self) ∧
  Forall untouched (validation_info self) ∧
  time_start self = None ∧ time_end self = None.
Proof.
  induction 1 as [| ? ? ? ? ? ? ? _ IH | ? ? ? ? ? ? ? _ IH | ? ? ? ? ? ? ? _ IH
                  | ? ? ? ? ? ? ? _ IH | ? ? ? ? ? ? ? _ IH | ? ? ? ? ? ? ? _ IH
                  | ? ? ? ? ? ? ? ? ? _ IH | ? ? ? ? ? ? ? ? ? _ IH
                  | ? ? ? ? ? ? _ IH | ? ? ? ? ? ? _ IH ];
    [by split_and!; [|apply Forall_nil_2|..]|..];
    destruct IH as (Hw & Hu & Hs & He);
    (split_and!;
     [by apply _add_validation_well_indexed
     |by apply add_validation_untouched
     |done|done]).
Qed.

Lemma built_plans_are_well_indexed_witness :
  well_indexed (validation_info plan_10_3) ∧
  Forall untouched (validation_info plan_10_3) ∧
  time_start plan_10_3 = None ∧ time_end plan_10_3 = None.
Proof.
  apply (built_plans_are_well_indexed plan_10_3).
  unfold plan_10_3. apply built_in_set, built_gt, built_new.
Defined.


Section LoopFacts2.
Variable now : nat → Q.
Variable isoformat : Q → string.
Variable preprocess : _ValidationInfo → frame → res frame.
Variable get_test_units : frame → string → res Z.
Variable get_test_results : frame → _ValidationInfo → res frame.
Variable row_based : string → bool.

Local Abbreviation active_step :=
  (interrogate_active preprocess get_test_units get_test_results row_based).
Local Abbreviation loop :=
  (interrogate_loop now isoformat preprocess get_test_units get_test_results row_based).

Lemma interrogate_active_plan (df : frame) (v : _ValidationInfo) :
  plan_of (active_step df v).1 = plan_of v.
Proof.
  unfold interrogate_active.
  repeat match goal with
         | |- context [match ?m with _ => _ end] => destruct m
         end; reflexivity.
Qed.

(** The loop keeps the plan fields of every step, however it ends. *)
Lemma loop_plan (df : frame) (t : nat) (steps : list _ValidationInfo) :
  plan_of <$> (loop df t steps).1.1 = plan_of <$> steps.
Proof.
  revert t. induction steps as [|v steps IH]; [done|]. intros t.
  cbn [interrogate_loop]. destruct (negb (active v)).
  - specialize (IH (S (S t))). destruct (loop df (S (S t)) steps) as [[rest' t'] e].
    cbn [fst] in *. by rewrite !fmap_cons, IH.
  - pose proof (interrogate_active_plan df v) as Hi.
    destruct (active_step df v) as [v' [e|]]; cbn [fst] in *.
    + by rewrite !fmap_cons, Hi.
    + specialize (IH (S (S t))). destruct (loop df (S (S t)) steps) as [[rest' t'] e].
      cbn [fst] in *. rewrite !fmap_cons, IH. f_equal.
      rewrite <- Hi. reflexivity.
Qed.

(** What a step that ran to its end holds. *)
Lemma interrogate_active_done (df : frame) (v v' : _ValidationInfo) :
  active_step df v = (v', None) →
  ∃ units results_tbl results_list failing,
    to_list "pb_is_good_" results_tbl = Some results_list ∧
    v' = set_results results_tbl results_list failing (set_n units v) ∧
    if row_based (assertion_type v)
    then ∃ kept e,
           filter_rows (cmp Eq (col "pb_is_good_") (lit (CBool false))) results_tbl
           = Some kept ∧
           drop ["pb_is_good_"] kept = Some e ∧ failing = Some e
    else failing = None.
Proof.
  unfold interrogate_active.
  destruct (preprocess v df) as [df_step|]; [|done].
  destruct (get_test_units df_step (column v)) as [units|]; [|done].
  destruct (get_test_results df_step (set_n units v)) as [results_tbl|]; [|done].
  destruct (to_list "pb_is_good_" results_tbl) as [results_list|] eqn:Hl; [|done].
  cbn [assertion_type set_n].
  destruct (row_based (assertion_type v)) eqn:Hrow.
  - destruct (filter_rows _ results_tbl) as [kept|] eqn:Hk; cbn; [|done].
    destruct (drop ["pb_is_good_"] kept) as [e|] eqn:He; [|done].
    intros [= <-]. exists units, results_tbl, results_list, (Some e).
    split_and!; [done..|]. by exists kept, e.
  - intros [= <-]. exists units, results_tbl, results_list, None.
    by split_and!.
Qed.

(** When the loop runs to its end, every active step ran to its end and was
    then given its two time fields. *)
Lemma loop_active (df : frame) (t : nat) (steps steps' : list _ValidationInfo)
    (t' : nat) (k : nat) (v : _ValidationInfo) :
  loop df t steps = (steps', t', None) →
  steps !! k = Some v → active v = true →
  ∃ v1 d p, active_step df v = (v1, None) ∧ steps' !! k = Some (set_times d p v1).
Proof.
  revert t steps' k. induction steps as [|w steps IH]; [done|].
  intros t steps' k. cbn [interrogate_loop].
  destruct (active w) eqn:Hw; cbn [negb].
  - destruct (active_step df w) as [w' [e|]] eqn:Hstep; [done|].
    destruct (loop df (S (S t)) steps) as [[rest' t''] e] eqn:Hl.
    intros [= <- <- ->] Hk Hv. destruct k as [|k].
    + injection Hk as <-. rewrite Hstep. cbn. eauto.
    + cbn in *. by eapply IH.
  - destruct (loop df (S (S t)) steps) as [[rest' t''] e] eqn:Hl.
    intros [= <- <- ->] Hk Hv. destruct k as [|k]; [cbn in Hk; congruence|].
    cbn in *. by eapply IH.
Qed.

(** When the loop is ended by an exception, the step that raised has not
    been given its time fields, and the steps after it are as they were. *)
Lemma loop_raised (df : frame) (t : nat) (steps steps' : list _ValidationInfo)
    (t' : nat) (e : pyerr) :
  loop df t steps = (steps', t', Some e) →
  ∃ k v, steps !! k = Some v ∧ active v = true ∧
         active_step df v = ((active_step df v).1, Some e) ∧
         steps' !! k = Some (active_step df v).1 ∧
         skipn (S k) steps' = skipn (S k) steps ∧
         Forall (fun u : _ValidationInfo => is_Some (time_processed u)) (take k steps').
Proof.
  revert t steps'. induction steps as [|w steps IH]; [done|].
  intros t steps'. cbn [interrogate_loop].
  destruct (active w) eqn:Hw; cbn [negb].
  - destruct (active_step df w) as [w' [e'|]] eqn:Hstep.
    + intros [= <- <- ->]. exists 0%nat, w. rewrite Hstep.
      split_and!; [done..|apply Forall_nil_2].
    + destruct (loop df (S (S t)) steps) as [[rest' t''] e''] eqn:Hl.
      intros [= <- <- ->].
      destruct (IH _ _ Hl) as (k & v & Hk & Hv & Hr & Hk' & Hd & Hp).
      exists (S k), v. split_and!; [done..|].
      cbn. apply Forall_cons_2; [by eexists|done].
  - destruct (loop df (S (S t)) steps) as [[rest' t''] e''] eqn:Hl.
    intros [= <- <- ->].
    destruct (IH _ _ Hl) as (k & v & Hk & Hv & Hr & Hk' & Hd & Hp).
    exists (S k), v. split_and!; [done..|].
    cbn. apply Forall_cons_2; [by eexists|done].
Qed.

Lemma interrogate_active_times (df : frame) (v : _ValidationInfo) :
  time_processed (active_step df v).1 = time_processed v ∧
  proc_duration_s (active_step df v).1 = proc_duration_s v.
Proof.
  unfold interrogate_active.
  repeat match goal with
         | |- context [match ?m with _ => _ end] => destruct m
         end; done.
Qed.

End LoopFacts2.

Lemma count_disjoint (results_list : list cell) :
  (count true results_list + count false results_list
   ≤ Z.of_nat (length results_list))%Z.
Proof.
  unfold count. induction results_list as [|c l IH]; [done|].
  rewrite !filter_cons. cbn [length].
  destruct c as [|z|[]|s]; cbn [equals_bool Bool.eqb Z.b2z];
    repeat case_decide; cbn [length]; try lia; done.
Qed.

Lemma count_booleans (results_list : list cell) :
  Forall (fun c => ∃ b, c = CBool b) results_list →
  (count true results_list + count false results_list
   = Z.of_nat (length results_list))%Z.
Proof.
  unfold count. induction 1 as [|c l [b ->] _ IH]; [done|].
  rewrite !filter_cons. cbn [length].
  destruct b; cbn [equals_bool Bool.eqb];
    repeat case_decide; cbn [length]; try lia; done.
Qed.

Lemma all_truthy_none_false (results_list : list cell) :
  forallb truthy results_list = true → count false results_list = 0%Z.
Proof.
  unfold count. induction results_list as [|c l IH]; [done|].
  cbn [forallb]. intros [Hc Hl]%andb_true_iff.
  rewrite filter_cons. case_decide as Hf; [|by apply IH].
  exfalso. destruct c as [|z|[]|s]; cbn in *; try done.
  apply Z.eqb_eq in Hf as ->. done.
Qed.

End PlanFacts.

Section ValidationCoverage.
Import Frames Validation Plans.

Section Runs.
Variable now : nat → Q.
Variable isoformat : Q → string.
Variable preprocess : _ValidationInfo → frame → res frame.
Variable get_test_units : frame → string → res Z.
Variable get_test_results : frame → _ValidationInfo → res frame.
Variable row_based : string → bool.

Local Abbreviation run :=
  (interrogate now isoformat preprocess get_test_units get_test_results row_based).

(** X14.  [interrogate], whether it returns or raises, leaves the number
    of steps and the plan fields of each step (index, assertion type, column,
    values, inclusive, na_pass, thresholds, active) as they were, leaves the
    table and the plan's thresholds, and sets [time_start] to the first clock
    reading; a plan that carries the indices 1, 2, ... still does. *)
Theorem interrogate_keeps_the_plan (self : Validate) :
  plan_of <$> validation_info (run self).1 = plan_of <$> validation_info self ∧
  length (validation_info (run self).1) = length (validation_info self) ∧
  data (run self).1 = data self ∧
  plan_thresholds (run self).1 = plan_thresholds self ∧
  time_start (run self).1 = Some (now 0) ∧
  (well_indexed (validation_info self) → well_indexed (validation_info (run self).1)).
Proof.
  unfold interrogate.
  pose proof (loop_plan now isoformat preprocess get_test_units get_test_results
                row_based (data self) 1 (validation_info self)) as Hplan.
  destruct (interrogate_loop _ _ _ _ _ _ (data self) 1 (validation_info self))
    as [[steps' t'] e].
  cbn [fst validation_info data plan_thresholds time_start] in *.
  assert (length steps' = length (validation_info self)) as Hlen.
  { apply (f_equal length) in Hplan. by rewrite !length_fmap in Hplan. }
  split_and!; [done..|].
  unfold well_indexed, indices. intros Hw. rewrite Hlen, <- Hw.
  apply (f_equal (fmap (fun p : _ => p.1.1.1.1.1.1.1))) in Hplan.
  by rewrite <- !list_fmap_compose in Hplan.
Qed.


(** X15.  When [interrogate] raises, [time_end] is left as it was; the
    step that raised is an active one and has not received its two time
    fields; the steps after it are exactly as they were; and every step
    before it has its processing time. *)
Theorem interrogate_stops_at_the_raising_step (self self' : Validate) (e : pyerr) :
  run self = (self', Some e) →
  time_end self' = time_end self ∧
  ∃ k v v',
    validation_info self !! k = Some v ∧ active v = true ∧
    validation_info self' !! k = Some v' ∧
    time_processed v' = time_processed v ∧
    proc_duration_s v' = proc_duration_s v ∧
    skipn (S k) (validation_info self') = skipn (S k) (validation_info self) ∧
    Forall (fun u : _ValidationInfo => is_Some (time_processed u))
      (take k (validation_info self')).
Proof.
  unfold interrogate.
  destruct (interrogate_loop _ _ _ _ _ _ (data self) 1 (validation_info self))
    as [[steps' t'] e'] eqn:Hloop.
  intros [= <- ->]. cbn [time_end validation_info]. split; [done|].
  destruct (loop_raised _ _ _ _ _ _ _ _ _ _ _ _ Hloop)
    as (k & v & Hk & Hv & _ & Hk' & Hd & Hp).
  destruct (interrogate_active_times preprocess get_test_units get_test_results
              row_based (data self) v) as [Ht Hdur].
  eexists k, v, _. by split_and!.
Qed.

Lemma lookup_same_plan (steps steps' : list _ValidationInfo) (k : nat)
    (v' : _ValidationInfo) :
  plan_of <$> steps' = plan_of <$> steps →
  steps' !! k = Some v' →
  ∃ v, steps !! k = Some v ∧ plan_of v = plan_of v'.
Proof.
  intros Hplan Hk.
  assert ((plan_of <$> steps) !! k = Some (plan_of v')) as H.
  { rewrite <- Hplan. rewrite list_lookup_fmap. by rewrite Hk. }
  rewrite list_lookup_fmap in H. destruct (steps !! k) as [v|]; [|done].
  exists v. split; [done|]. cbn in H. congruence.
Qed.

Lemma step_that_ran (self self' : Validate) (k : nat) (v' : _ValidationInfo) :
  run self = (self', None) →
  validation_info self' !! k = Some v' →
  active v' = true →
  ∃ v units results_tbl results_list failing duration stamp',
    validation_info self !! k = Some v ∧
    to_list "pb_is_good_" results_tbl = Some results_list ∧
    v' = set_times duration stamp'
           (set_results results_tbl results_list failing (set_n units v)) ∧
    if row_based (assertion_type v')
    then ∃ kept e,
           filter_rows (cmp Eq (col "pb_is_good_") (lit (CBool false))) results_tbl
           = Some kept ∧
           Frames.drop ["pb_is_good_"] kept = Some e ∧ failing = Some e
    else failing = None.
Proof.
  unfold interrogate. intros Hrun Hk' Hactive.
  pose proof (loop_plan now isoformat preprocess get_test_units get_test_results
                row_based (data self) 1 (validation_info self)) as Hplan.
  destruct (interrogate_loop _ _ _ _ _ _ (data self) 1 (validation_info self))
    as [[steps' t'] e'] eqn:Hloop.
  injection Hrun as <- ->. cbn [fst validation_info] in *.
  destruct (lookup_same_plan _ _ _ _ Hplan Hk') as (v & Hk & Hsame).
  assert (active v = true ∧ assertion_type v = assertion_type v') as [Hv Htype].
  { unfold plan_of in Hsame. injection Hsame as _ ? _ _ _ _ _ ?. split; congruence. }
  destruct (loop_active _ _ _ _ _ _ _ _ _ _ _ _ _ Hloop Hk Hv)
    as (v1 & d & p & Hstep & Hk1).
  assert (v' = set_times d p v1) as -> by congruence.
  destruct (interrogate_active_done _ _ _ _ _ _ _ Hstep)
    as (units & tbl & results & failing & Hl & -> & Hex).
  exists v, units, tbl, results, failing, d, p. split_and!; [done..|].
  by rewrite <- Htype.
Qed.

(** X16.  When [interrogate] returns, an active step holds its results
    table; its [n] is the number of rows of that table (the count taken from
    [NumberOfTestUnits] is overwritten); [n_passed] and [n_failed] are not
    negative and sum to at most [n], and to [n] exactly when every
    [pb_is_good_] cell is a boolean; [all_passed = True] implies
    [n_failed = 0]; and both time fields are set. *)
Theorem active_step_counts (self self' : Validate) (k : nat) (v' : _ValidationInfo) :
  run self = (self', None) →
  validation_info self' !! k = Some v' →
  active v' = true →
  ∃ results_tbl results_list passed failed,
    tbl_checked v' = Some results_tbl ∧
    to_list "pb_is_good_" results_tbl = Some results_list ∧
    n v' = Some (Z.of_nat (length (rows results_tbl))) ∧
    n_passed v' = Some passed ∧ n_failed v' = Some failed ∧
    (0 ≤ passed)%Z ∧ (0 ≤ failed)%Z ∧
    (passed + failed ≤ Z.of_nat (length (rows results_tbl)))%Z ∧
    (Forall (fun c => ∃ b, c = CBool b) results_list →
     (passed + failed = Z.of_nat (length (rows results_tbl)))%Z) ∧
    (all_passed v' = Some true → failed = 0%Z) ∧
    is_Some (time_processed v') ∧ is_Some (proc_duration_s v').
Proof.
  intros Hrun Hk' Hactive.
  destruct (step_that_ran _ _ _ _ Hrun Hk' Hactive)
    as (v & units & tbl & results & failing & d & p & Hk & Hl & -> & _).
  assert (length results = length (rows tbl)) as Hlen.
  { unfold to_list in Hl. apply mapM_Some_1 in Hl. symmetry. by eapply Forall2_length. }
  exists tbl, results, (count true results), (count false results).
  cbn. rewrite <- Hlen.
  pose proof (count_bounds true results). pose proof (count_bounds false results).
  pose proof (count_disjoint results).
  split_and!; try done; try lia; try (by eexists).
  - apply count_booleans.
  - intros [= Hall]. by apply all_truthy_none_false.
Qed.

Lemma failing_rows_kept (f kept : frame) :
  filter_rows (cmp Eq (col "pb_is_good_") (lit (CBool false))) f = Some kept →
  rows kept
  = filter (fun r : gmap string cell => r !! "pb_is_good_" = Some (CBool false)) (rows f) ∧
  ∀ results_list, to_list "pb_is_good_" f = Some results_list →
    count false results_list
    = Z.of_nat (length (filter (fun r : gmap string cell =>
                                  r !! "pb_is_good_" = Some (CBool false)) (rows f))).
Proof.
  unfold filter_rows, to_list, count.
  intros (keep & Hkeep & [= <-])%bind_Some. cbn [rows].
  apply mapM_Some_1 in Hkeep. revert Hkeep. generalize (kind f) as b.
  intros b Hkeep. induction Hkeep as [|r c rs keep Hr _ [IH1 IH2]].
  - split; [done|]. by intros ? [= <-].
  - unfold cmp, col, lit in Hr. cbn in Hr.
    destruct (r !! "pb_is_good_") as [a|] eqn:Ha; [|done]. cbn in Hr.
    split.
    + cbn [zip zip_with]. rewrite !filter_cons, Ha. cbn [snd].
      destruct a as [| |[]|]; cbn in Hr; try done; injection Hr as <-;
        repeat case_decide; try done; cbn [fmap list_fmap fst]; try (by f_equal);
        destruct b; done.
    + intros results Hres. cbn in Hres. rewrite Ha in Hres. cbn in Hres.
      destruct (mapM _ rs) as [rest|] eqn:Hrest; [|done]. injection Hres as <-.
      specialize (IH2 rest eq_refl). rewrite !filter_cons, Ha.
      destruct a as [| |[]|]; cbn in Hr; try done;
        repeat case_decide; try done; cbn [length equals_bool Bool.eqb] in *; lia.
Qed.

Lemma drop_rows (names : list string) (f e : frame) :
  Frames.drop names f = Some e →
  rows e = (fun r : gmap string cell => foldr delete r names) <$> rows f.
Proof.
  unfold Frames.drop, map_rows. intros (rows' & H & [= <-])%bind_Some. cbn.
  apply mapM_Some_1 in H. induction H as [|r r' rs rs' Hr _ IH]; [done|].
  cbn. rewrite IH. f_equal. unfold remove in Hr.
  destruct (forallb _ names); [|done]. by injection Hr as <-.
Qed.

(** X17.  When [interrogate] returns, the [extract] of an active step of
    a row-based type holds the rows of the results table whose [pb_is_good_]
    is [False], in their order and without the [pb_is_good_] column: as many
    rows as [n_failed] counts. *)
Theorem extract_holds_the_failing_rows (self self' : Validate) (k : nat)
    (v' : _ValidationInfo) :
  run self = (self', None) →
  validation_info self' !! k = Some v' →
  active v' = true →
  row_based (assertion_type v') = true →
  ∃ results_tbl e failed,
    tbl_checked v' = Some results_tbl ∧ extract v' = Some e ∧
    n_failed v' = Some failed ∧
    rows e = delete "pb_is_good_" <$>
               filter (fun r : gmap string cell => r !! "pb_is_good_" = Some (CBool false))
                 (rows results_tbl) ∧
    Z.of_nat (length (rows e)) = failed.
Proof.
  intros Hrun Hk' Hactive Hrow.
  destruct (step_that_ran _ _ _ _ Hrun Hk' Hactive)
    as (v & units & tbl & results & failing & d & p & Hk & Hl & -> & Hex).
  rewrite Hrow in Hex. destruct Hex as (kept & e & Hkept & He & ->).
  destruct (failing_rows_kept _ _ Hkept) as [Hrows Hcount].
  apply drop_rows in He. cbn in He. rewrite Hrows in He.
  exists tbl, e, (count false results). cbn. split_and!; [done..|].
  by rewrite He, length_fmap, (Hcount _ Hl).
Qed.

(** X18.  After [interrogate] has returned, [all_passed()] is [False] as
    soon as the plan has an inactive step that held no result before: the
    step's [all_passed] stays [None], which [all] reads as false. *)
Theorem inactive_step_fails_all_passed (self self' : Validate) (k : nat)
    (v : _ValidationInfo) :
  run self = (self', None) →
  validation_info self !! k = Some v →
  active v = false →
  all_passed v = None →
  all_passed_ self' = false.
Proof.
  unfold interrogate. intros Hrun Hk Hv Hnone.
  destruct (interrogate_loop _ _ _ _ _ _ (data self) 1 (validation_info self))
    as [[steps' t'] e'] eqn:Hloop.
  injection Hrun as <- ->.
  destruct (loop_inactive _ _ _ _ _ _ _ _ _ _ _ _ _ Hloop Hk Hv) as (d & p & Hk').
  unfold all_passed_. cbn [validation_info].
  apply not_true_iff_false. intros Hall. rewrite forallb_forall in Hall.
  specialize (Hall (set_times d p v)). cbn in Hall. rewrite Hnone in Hall.
  assert (false = true) as Habs; [|done].
  apply Hall, list_elem_of_In. by eapply list_elem_of_lookup_2.
Qed.

End Runs.

Lemma interrogate_stops_at_the_raising_step_witness :
  time_end (interrogate ticking stamp keep count_rows run_gt row_based_all plan_refused).1
  = time_end plan_refused ∧
  ∃ k v v',
    validation_info plan_refused !! k = Some v ∧ active v = true ∧
    validation_info
      (interrogate ticking stamp keep count_rows run_gt row_based_all plan_refused).1
      !! k = Some v' ∧
    time_processed v' = time_processed v ∧
    proc_duration_s v' = proc_duration_s v ∧
    skipn (S k)
      (validation_info
         (interrogate ticking stamp keep count_rows run_gt row_based_all plan_refused).1)
    = skipn (S k) (validation_info plan_refused) ∧
    Forall (fun u : _ValidationInfo => is_Some (time_processed u))
      (take k
         (validation_info
            (interrogate ticking stamp keep count_rows run_gt row_based_all
               plan_refused).1)).
Proof.
  apply (interrogate_stops_at_the_raising_step ticking stamp keep count_rows run_gt
           row_based_all plan_refused _ (ValueError "Invalid comparison type.")).
  vm_compute. reflexivity.
Defined.

Lemma active_step_counts_witness :
  ∃ results_tbl results_list passed failed,
    tbl_checked (first_step ran_10_3) = Some results_tbl ∧
    to_list "pb_is_good_" results_tbl = Some results_list ∧
    n (first_step ran_10_3) = Some (Z.of_nat (length (rows results_tbl))) ∧
    n_passed (first_step ran_10_3) = Some passed ∧
    n_failed (first_step ran_10_3) = Some failed ∧
    (0 ≤ passed)%Z ∧ (0 ≤ failed)%Z ∧
    (passed + failed ≤ Z.of_nat (length (rows results_tbl)))%Z ∧
    (Forall (fun c => ∃ b, c = CBool b) results_list →
     (passed + failed = Z.of_nat (length (rows results_tbl)))%Z) ∧
    (all_passed (first_step ran_10_3) = Some true → failed = 0%Z) ∧
    is_Some (time_processed (first_step ran_10_3)) ∧
    is_Some (proc_duration_s (first_step ran_10_3)).
Proof.
  apply (active_step_counts ticking stamp keep count_rows run_gt row_based_all
           plan_10_3 ran_10_3 0 (first_step ran_10_3));
    vm_compute; reflexivity.
Defined.

Lemma extract_holds_the_failing_rows_witness :
  ∃ results_tbl e failed,
    tbl_checked (first_step ran_10_3) = Some results_tbl ∧
    extract (first_step ran_10_3) = Some e ∧
    n_failed (first_step ran_10_3) = Some failed ∧
    rows e = delete "pb_is_good_" <$>
               filter (fun r : gmap string cell => r !! "pb_is_good_" = Some (CBool false))
                 (rows results_tbl) ∧
    Z.of_nat (length (rows e)) = failed.
Proof.
  apply (extract_holds_the_failing_rows ticking stamp keep count_rows run_gt
           row_based_all plan_10_3 ran_10_3 0 (first_step ran_10_3));
    vm_compute; reflexivity.
Defined.

Lemma inactive_step_fails_all_passed_witness : all_passed_ ran_10_3 = false.
Proof.
  apply (inactive_step_fails_all_passed ticking stamp keep count_rows run_gt
           row_based_all plan_10_3 ran_10_3 1
           (set_i 2 (new_ValidationInfo "col_vals_in_set" "x" (SetValues [1; 2]%Z)
                      None None None no_thresholds false)));
    vm_compute; reflexivity.
Defined.

Lemma filtered_keys_NoDup (steps : list _ValidationInfo) (l : list Z) :
  well_indexed steps →
  NoDup (Validation.i <$>
           filter (fun v : _ValidationInfo => index_in (Validation.i v) l = true) steps).
Proof.
  intros Hw. eapply sublist_NoDup; [by apply well_indexed_NoDup|].
  apply fmap_sublist, sublist_filter.
Qed.

(** X19.  On a plan that carries the indices 1, 2, ..., an accessor
    called with an integer or a list of integers returns the dictionary that
    maps each listed index of a registered step to that step's field and has
    no other key: a step that is not listed, an index out of range and the
    key [None] have no entry, and neither repetitions nor the order of the
    list matter. *)
Theorem accessor_entries_by_index (self : Validate) (q : step_query) (l : list Z)
    (attr : string) (get : _ValidationInfo → attr_value) :
  well_indexed (validation_info self) →
  field attr = Some get →
  as_list q = Some l →
  ∃ d, _get_validation_dict self q attr = Ok d ∧
       (∀ j v, validation_info self !! j = Some v →
               d !! Some (Z.of_nat j + 1)%Z
               = if bool_decide ((Z.of_nat j + 1)%Z ∈ l) then Some (get v) else None) ∧
       (∀ z, (z < 1 ∨ Z.of_nat (length (validation_info self)) < z)%Z →
             d !! Some z = None) ∧
       d !! None = None.
Proof.
  intros Hw Hf Hq. eexists. split; [by apply (get_validation_dict_some _ _ l _ get)|].
  set (chosen := filter (fun v : _ValidationInfo => index_in (Validation.i v) l = true)
                   (validation_info self)).
  assert (NoDup ((fun v => (Validation.i v, get v)) <$> chosen).*1) as Hnd.
  { rewrite <- list_fmap_compose. by apply filtered_keys_NoDup. }
  assert (∀ key, key ∉ Validation.i <$> chosen →
                 dict_of ((fun v => (Validation.i v, get v)) <$> chosen) !! key = None)
    as Hnone.
  { intros key Hkey. apply dict_of_lookup_None. by rewrite <- list_fmap_compose. }
  assert (∀ key, key ∈ Validation.i <$> chosen →
                 ∃ j v, validation_info self !! j = Some v ∧
                        key = Some (Z.of_nat j + 1)%Z ∧ (Z.of_nat j + 1)%Z ∈ l) as Hkeys.
  { intros key (v & -> & Hv)%list_elem_of_fmap.
    apply list_elem_of_filter in Hv as [Hin Hv].
    apply list_elem_of_lookup in Hv as [j Hj]. exists j, v.
    rewrite (well_indexed_lookup _ _ _ Hw Hj) in *. cbn in Hin.
    by apply bool_decide_eq_true in Hin. }
  split_and!.
  - intros j v Hj. case_bool_decide as Hin.
    + apply dict_of_lookup; [done|]. apply list_elem_of_fmap. exists v. split.
      * by rewrite (well_indexed_lookup _ _ _ Hw Hj).
      * apply list_elem_of_filter. split; [|by eapply list_elem_of_lookup_2].
        rewrite (well_indexed_lookup _ _ _ Hw Hj). cbn. by apply bool_decide_eq_true.
    + apply Hnone. intros (j' & v' & _ & [= Heq] & Hl)%Hkeys.
      by rewrite Heq in Hin.
  - intros z Hz. apply Hnone. intros (j & v & Hj & [= ->] & _)%Hkeys.
    apply lookup_lt_Some in Hj. lia.
  - apply Hnone. by intros (j & v & _ & ? & _)%Hkeys.
Qed.

Lemma accessor_entries_by_index_witness :
  ∃ d, n_ ran_10_3 (SomeSteps [2; 7; 2]%Z) = Ok d ∧
       (∀ j v, validation_info ran_10_3 !! j = Some v →
               d !! Some (Z.of_nat j + 1)%Z
               = if bool_decide ((Z.of_nat j + 1)%Z ∈ [2; 7; 2]%Z)
                 then Some (of_option AInt (n v)) else None) ∧
       (∀ z, (z < 1 ∨ Z.of_nat (length (validation_info ran_10_3)) < z)%Z →
             d !! Some z = None) ∧
       d !! None = None.
Proof.
  apply (accessor_entries_by_index ran_10_3 (SomeSteps [2; 7; 2]%Z) [2; 7; 2]%Z "n"
           (fun v => of_option AInt (n v)));
    vm_compute; reflexivity.
Defined.

End ValidationCoverage.
